(** * The pipeline component base contract

    A shallow embedding of [pipeline/core/component.py]: the class
    [PipelineComponent] with its constructor, its state accessors, the
    [asynchronous] property, the call envelope, the extra-handler runner
    and the runtime-info snapshot.

    Python objects that the code mutates in place and that may be reached
    through more than one reference live in the world: the per-session
    mapping from path to state name and its deep copies in a heap of
    dictionaries, the lists of callables of the extra handlers in a heap
    of lists.  Everything else is passed by value. *)

From Stdlib Require Import String Ascii.
From stdpp Require Import gmap strings list fin_maps.

Local Open Scope string_scope.

(** ** Enumerations *)

Module ComponentExecutionState.
(** Modelled from the spec: [ComponentExecutionState] is declared in
    [..types], which is not at hand; its members are NOT_RUN, RUNNING,
    FINISHED and FAILED. *)
Inductive t : Type := NOT_RUN | RUNNING | FINISHED | FAILED.

(** [value.name] *)
Definition name (value : t) : string :=
  match value with
  | NOT_RUN => "NOT_RUN"
  | RUNNING => "RUNNING"
  | FINISHED => "FINISHED"
  | FAILED => "FAILED"
  end.

(** The member map of the enumeration: which member, if any, carries a
    given name. *)
Definition member_of_name (s : string) : option t :=
  if String.eqb s "NOT_RUN" then Some NOT_RUN
  else if String.eqb s "RUNNING" then Some RUNNING
  else if String.eqb s "FINISHED" then Some FINISHED
  else if String.eqb s "FAILED" then Some FAILED
  else None.
End ComponentExecutionState.

Module ExtraHandlerType.
(** Modelled from the spec: [ExtraHandlerType] is declared in [..types],
    which is not at hand; a handler carries a stage tag BEFORE or AFTER.
    [UNDEFINED] stands for any further member, for which
    [run_extra_handler] keeps its [extra_handler is None] exit. *)
Inductive t : Type := UNDEFINED | BEFORE | AFTER.

Definition eqb (a b : t) : bool :=
  match a, b with
  | UNDEFINED, UNDEFINED | BEFORE, BEFORE | AFTER, AFTER => true
  | _, _ => false
  end.

Definition name (a : t) : string :=
  match a with
  | UNDEFINED => "UNDEFINED"
  | BEFORE => "BEFORE"
  | AFTER => "AFTER"
  end.
End ExtraHandlerType.

Module GlobalExtraHandlerType.
(** Modelled from the spec: [GlobalExtraHandlerType] is declared in
    [..types], which is not at hand; a global extra handler is identified
    by a BEFORE or an AFTER tag. *)
Inductive t : Type := BEFORE | AFTER.
End GlobalExtraHandlerType.

(** ** Python values and exceptions *)

(** What [dict.get(self.path, default)] can hand to the enumeration's
    subscript: a stored name, the caller's default (a member), or [None]. *)
Inductive PyValue : Type :=
| PStr (s : string)
| PMember (m : ComponentExecutionState.t)
| PNone.

(** The two messages [__init__] raises, kept apart from their rendering. *)
Inductive InitError : Type :=
| BadName (name : string)
| CantBeAsync (class_name : string) (name : option string).

Definition str_of_name (name : option string) : string :=
  match name with
  | Some n => n
  | None => "None"
  end.

(** The f-strings of lines 79 and 82. *)
Definition message (e : InitError) : string :=
  match e with
  | BadName name =>
      "User defined service name shouldn't be blank or contain '.' (service: "
        ++ name ++ ")!"
  | CantBeAsync class_name name =>
      class_name ++ " '" ++ str_of_name name ++ "' can't be asynchronous!"
  end.

Inductive PyException : Type :=
| KeyError (key : PyValue)
| TimeoutError
| Exception (e : InitError)
| DanglingReference
| OtherError (tag : string).

Inductive Outcome (A : Type) : Type :=
| Ret (a : A)
| Raise (e : PyException).

Arguments Ret {A} a.
Arguments Raise {A} e.

(** ** Strings *)

(** [c in name] for a one-character needle. *)
Fixpoint char_in (c : ascii) (s : string) : bool :=
  match s with
  | EmptyString => false
  | String x rest => if Ascii.eqb x c then true else char_in c rest
  end.

(** ** The session state *)

Definition loc : Type := positive.

(** [Context] comes from [dff.core.engine.core]; the component only uses
    its [framework_states] dictionary, whose values are references to
    dictionaries on the heap. *)
Record Context : Type := mkContext {
  framework_states : gmap string loc
}.

(** The mapping from component path to the name of its state.  A path is
    [Optional[str]] in the source, and [None] is a valid dictionary key. *)
Abbreviation StateDict := (gmap (option string) string).

Section Component.

(** What the source takes from modules that are not at hand. *)
Variable PIPELINE_STATE_KEY : string.
Context {Actor float ExtraHandlerFunction : Type}.

(** The string a member of [ComponentExecutionState] is equal to, when
    the enumeration mixes in [str]; [None] for a plain enumeration,
    whose members are equal to no string. *)
Variable str_value : ComponentExecutionState.t -> option string.

(** *** Extra handlers *)

(** Modelled from the spec: the handler classes are declared in
    [..service.extra], which is not at hand.  A handler has a list of
    callables and a stage tag; the list is a Python list object, which
    [functions] refers to and which is appended to in place. *)
Record ComponentExtraHandler : Type := mkHandler {
  functions : loc;
  stage : ExtraHandlerType.t
}.

(** Modelled from the spec: [BeforeHandler] of [..service.extra], the
    handler of the BEFORE stage over the list object it is given. *)
Definition BeforeHandler (fs : loc) : ComponentExtraHandler :=
  {| functions := fs; stage := ExtraHandlerType.BEFORE |}.

(** Modelled from the spec: [AfterHandler] of [..service.extra], the
    handler of the AFTER stage over the list object it is given. *)
Definition AfterHandler (fs : loc) : ComponentExtraHandler :=
  {| functions := fs; stage := ExtraHandlerType.AFTER |}.

(** *** Components *)

Definition StartConditionCheckerFunction : Type := Context -> option Actor -> bool.

(** Modelled from the spec: [always_start_condition] is declared in
    [..conditions], which is not at hand; it is constantly true. *)
Definition always_start_condition : StartConditionCheckerFunction :=
  fun _ _ => true.

(** The attributes [__init__] assigns; [class_name] is
    [type(self).__name__]. *)
Record PipelineComponent : Type := mkComponent {
  class_name : string;
  timeout : option float;
  requested_async_flag : option bool;
  calculated_async_flag : bool;
  start_condition : StartConditionCheckerFunction;
  name : option string;
  path : option string;
  before_handler : ComponentExtraHandler;
  after_handler : ComponentExtraHandler
}.

(** Truth value of an [Optional[bool]]. *)
Definition truthy (b : option bool) : bool :=
  match b with
  | Some true => true
  | _ => false
  end.

(** The [asynchronous] property, line 131. *)
Definition asynchronous (self : PipelineComponent) : bool :=
  match requested_async_flag self with
  | None => calculated_async_flag self
  | Some b => b
  end.

(** *** The runtime-info snapshot and the objects of the call envelope *)

(** The dictionary [_get_runtime_info] returns; [info_execution_state]
    is a reference to the copied mapping. *)
Record ServiceRuntimeInfo : Type := mkInfo {
  info_name : string;
  info_path : string;
  info_timeout : option float;
  info_asynchronous : bool;
  info_execution_state : loc
}.

(** The coroutine object [self._run(ctx, actor)], not yet started. *)
Inductive Coroutine : Type :=
| _run_coroutine (self : PipelineComponent) (ctx : Context) (actor : option Actor).

(** A task of the event loop: a coroutine scheduled to run on its own,
    which can be cancelled. *)
Inductive Task : Type :=
| TaskOf (coro : Coroutine).

(** [asyncio.wait_for(task, timeout=...)]: the awaitable that, once
    awaited, waits for the task and cancels it when the timeout
    expires. *)
Inductive Awaitable : Type :=
| asyncio_wait_for (task : Task) (timeout_ : option float).

Inductive LogRecord : Type :=
| WARNING (msg : string).

(** *** The world: the two heaps, the log and the event loop *)

Record World : Type := mkWorld {
  heap : gmap loc StateDict;
  lists : gmap loc (list ExtraHandlerFunction);
  log : list LogRecord;
  tasks : list Task
}.

Definition set_heap (h : gmap loc StateDict) (w : World) : World :=
  {| heap := h; lists := lists w; log := log w; tasks := tasks w |}.

Definition set_lists (ls : gmap loc (list ExtraHandlerFunction)) (w : World) : World :=
  {| heap := heap w; lists := ls; log := log w; tasks := tasks w |}.

Definition Py (A : Type) : Type := World -> Outcome A * World.

Definition ret {A : Type} (a : A) : Py A := fun w => (Ret a, w).

Definition raise {A : Type} (e : PyException) : Py A := fun w => (Raise e, w).

Definition bind {A B : Type} (m : Py A) (k : A -> Py B) : Py B :=
  fun w =>
    match m w with
    | (Ret a, w') => k a w'
    | (Raise e, w') => (Raise e, w')
    end.

(** [try: body except ...: handler] *)
Definition try_except {A : Type} (body : Py A) (handler : PyException -> Py A) : Py A :=
  fun w =>
    match body w with
    | (Ret a, w') => (Ret a, w')
    | (Raise e, w') => handler e w'
    end.

Notation "x <- m ;; k" := (bind m (fun x => k))
  (at level 100, m at next level, right associativity).
Notation "m ;;; k" := (bind m (fun _ => k))
  (at level 100, right associativity).

(** [{}]: a new, empty dictionary. *)
Definition new_dict : Py loc :=
  fun w =>
    let l := fresh (dom (heap w)) in
    (Ret l, set_heap (<[l := ∅]> (heap w)) w).

(** The dictionary a reference stands for. *)
Definition deref (l : loc) : Py StateDict :=
  fun w =>
    match heap w !! l with
    | Some d => (Ret d, w)
    | None => (Raise DanglingReference, w)
    end.

(** [d[key] = value] on the dictionary at [l]. *)
Definition dict_setitem (l : loc) (key : option string) (value : string) : Py unit :=
  d <- deref l ;;
  fun w => (Ret tt, set_heap (<[l := <[key := value]> d]> (heap w)) w).

(** [d.get(key, default)] *)
Definition dict_get (d : StateDict) (key : option string)
    (dflt : option ComponentExecutionState.t) : PyValue :=
  match d !! key with
  | Some s => PStr s
  | None =>
      match dflt with
      | Some m => PMember m
      | None => PNone
      end
  end.

(** [copy.deepcopy(d)]: a new dictionary with the same entries; the
    values are strings, which are immutable. *)
Definition copy_deepcopy (l : loc) : Py loc :=
  d <- deref l ;;
  fun w =>
    let l' := fresh (dom (heap w)) in
    (Ret l', set_heap (<[l' := d]> (heap w)) w).

(** [ctx.framework_states[key]] *)
Definition framework_states_getitem (ctx : Context) (key : string) : Py loc :=
  match framework_states ctx !! key with
  | Some l => ret l
  | None => raise (KeyError (PStr key))
  end.

(** [ctx.framework_states[key] = l] *)
Definition framework_states_setitem (ctx : Context) (key : string) (l : loc) : Context :=
  {| framework_states := <[key := l]> (framework_states ctx) |}.

(** [ComponentExecutionState[key]]: the subscript of the enumeration,
    a lookup of [key] among the member names. *)
Definition ComponentExecutionState_getitem (key : PyValue) : Py ComponentExecutionState.t :=
  let by_name (s : string) :=
    match ComponentExecutionState.member_of_name s with
    | Some m => ret m
    | None => raise (KeyError key)
    end in
  match key with
  | PStr s => by_name s
  | PMember m =>
      match str_value m with
      | Some s => by_name s
      | None => raise (KeyError key)
      end
  | PNone => raise (KeyError key)
  end.

(** [logger.warning(msg)] *)
Definition logger_warning (msg : string) : Py unit :=
  fun w =>
    (Ret tt,
     {| heap := heap w; lists := lists w; log := log w ++ [WARNING msg]; tasks := tasks w |}).

(** [asyncio.create_task(coro)]: the coroutine is handed to the event
    loop; its body does not run before the caller yields. *)
Definition asyncio_create_task (coro : Coroutine) : Py Task :=
  fun w =>
    (Ret (TaskOf coro),
     {| heap := heap w; lists := lists w; log := log w;
        tasks := tasks w ++ [TaskOf coro] |}).

(** [[]]: a new, empty list. *)
Definition new_list : Py loc :=
  fun w =>
    let l := fresh (dom (lists w)) in
    (Ret l, set_lists (<[l := []]> (lists w)) w).

(** [xs.append(x)] on the list at [l]. *)
Definition list_append (l : loc) (x : ExtraHandlerFunction) : Py unit :=
  fun w =>
    match lists w !! l with
    | Some xs => (Ret tt, set_lists (<[l := (xs ++ [x])%list]> (lists w)) w)
    | None => (Raise DanglingReference, w)
    end.

(** *** Construction and registration *)

(** [[] if builder is None else builder], lines 75 and 76: the caller's
    list object, or a new empty list. *)
Definition builder_list (builder : option loc) : Py loc :=
  match builder with
  | None => new_list
  | Some l => ret l
  end.

(** [PipelineComponent.__init__], lines 48-82.  The attributes are
    assigned first, the handlers are built over the lists, and the two
    checks come last, the name before the flags. *)
Definition __init__ (cls : string)
    (before_handler_ after_handler_ : option loc)
    (timeout_ : option float)
    (requested_async_flag_ : option bool)
    (calculated_async_flag_ : bool)
    (start_condition_ : option StartConditionCheckerFunction)
    (name_ path_ : option string) : Py PipelineComponent :=
  before_functions <- builder_list before_handler_ ;;
  after_functions <- builder_list after_handler_ ;;
  let self :=
    {| class_name := cls;
       timeout := timeout_;
       requested_async_flag := requested_async_flag_;
       calculated_async_flag := calculated_async_flag_;
       start_condition :=
         match start_condition_ with
         | None => always_start_condition
         | Some c => c
         end;
       name := name_;
       path := path_;
       before_handler := BeforeHandler before_functions;
       after_handler := AfterHandler after_functions |} in
  if match name_ with
     | Some n => String.eqb n "" || char_in "." n
     | None => false
     end
  then raise (Exception (BadName (str_of_name name_)))
  else if negb calculated_async_flag_ && truthy requested_async_flag_
  then raise (Exception (CantBeAsync cls name_))
  else ret self.

(** [target.functions.append(extra_handler)] *)
Definition functions_append (target : ComponentExtraHandler)
    (extra_handler : ExtraHandlerFunction) : Py unit :=
  list_append (functions target) extra_handler.

(** [add_extra_handler], lines 184-187. *)
Definition add_extra_handler (self : PipelineComponent)
    (global_extra_handler_type : GlobalExtraHandlerType.t)
    (extra_handler : ExtraHandlerFunction) : Py unit :=
  let target :=
    match global_extra_handler_type with
    | GlobalExtraHandlerType.BEFORE => before_handler self
    | _ => after_handler self
    end in
  functions_append target extra_handler.

(** *** State accessors *)

(** [_set_state], lines 93-95.  The context is handed back as it is
    after the call. *)
Definition _set_state (self : PipelineComponent) (ctx : Context)
    (value : ComponentExecutionState.t) : Py Context :=
  ctx <- match framework_states ctx !! PIPELINE_STATE_KEY with
         | None =>
             d <- new_dict ;;
             ret (framework_states_setitem ctx PIPELINE_STATE_KEY d)
         | Some _ => ret ctx
         end ;;
  d <- framework_states_getitem ctx PIPELINE_STATE_KEY ;;
  dict_setitem d (path self) (ComponentExecutionState.name value) ;;;
  ret ctx.

(** [get_state], lines 107-109. *)
Definition get_state (self : PipelineComponent) (ctx : Context)
    (dflt : option ComponentExecutionState.t) : Py ComponentExecutionState.t :=
  l <- framework_states_getitem ctx PIPELINE_STATE_KEY ;;
  d <- deref l ;;
  ComponentExecutionState_getitem
    (dict_get d (path self)
       (match dflt with
        | Some m => Some m
        | None => None
        end)).

(** [_get_runtime_info], lines 197-203. *)
Definition _get_runtime_info (self : PipelineComponent) (ctx : Context) : Py ServiceRuntimeInfo :=
  let name_ := match name self with Some n => n | None => "[None]" end in
  let path_ := match path self with Some p => p | None => "[None]" end in
  let timeout_ := timeout self in
  let asynchronous_ := asynchronous self in
  l <- framework_states_getitem ctx PIPELINE_STATE_KEY ;;
  execution_state <- copy_deepcopy l ;;
  ret {| info_name := name_;
         info_path := path_;
         info_timeout := timeout_;
         info_asynchronous := asynchronous_;
         info_execution_state := execution_state |}.

(** *** Extra handlers and the call envelope *)

(** What calling an extra handler yields: a plain value, or an
    awaitable still to be awaited. *)
Inductive HandlerResult : Type :=
| NotAwaitable
| IsAwaitable (aw : Py unit).

(** The behaviour of the handler objects and of the subclasses' [_run],
    none of which is at hand. *)
Variable extra_handler_call :
  ComponentExtraHandler -> Context -> Actor -> ServiceRuntimeInfo -> Py HandlerResult.
Variable extra_handler_asynchronous : ComponentExtraHandler -> bool.
Variable _run : PipelineComponent -> Context -> option Actor -> Py (option Context).

Definition timed_out_message (self : PipelineComponent)
    (extra_handler : ComponentExtraHandler) : string :=
  class_name self ++ " '" ++ str_of_name (name self) ++ "' "
    ++ ExtraHandlerType.name (stage extra_handler) ++ " extra handler timed out!".

(** [run_extra_handler], lines 133-146. *)
Definition run_extra_handler (self : PipelineComponent) (stage_ : ExtraHandlerType.t)
    (ctx : Context) (actor : Actor) : Py unit :=
  let extra_handler : option ComponentExtraHandler := None in
  let extra_handler :=
    if ExtraHandlerType.eqb stage_ ExtraHandlerType.BEFORE
    then Some (before_handler self) else extra_handler in
  let extra_handler :=
    if ExtraHandlerType.eqb stage_ ExtraHandlerType.AFTER
    then Some (after_handler self) else extra_handler in
  match extra_handler with
  | None => ret tt
  | Some extra_handler =>
      try_except
        (info <- _get_runtime_info self ctx ;;
         extra_handler_result <- extra_handler_call extra_handler ctx actor info ;;
         match extra_handler_result with
         | IsAwaitable aw =>
             if extra_handler_asynchronous extra_handler then aw else ret tt
         | NotAwaitable => ret tt
         end)
        (fun e =>
           match e with
           | TimeoutError => logger_warning (timed_out_message self extra_handler)
           | _ => raise e
           end)
  end.

(** What [__call__] returns: the value of [_run], or an awaitable that
    the caller has yet to await. *)
Inductive CallResult : Type :=
| Returned (r : option Context)
| ReturnedAwaitable (aw : Awaitable).

(** [__call__], lines 170-174. *)
Definition __call__ (self : PipelineComponent) (ctx : Context)
    (actor : option Actor) : Py CallResult :=
  if asynchronous self then
    task <- asyncio_create_task (_run_coroutine self ctx actor) ;;
    ret (ReturnedAwaitable (asyncio_wait_for task (timeout self)))
  else
    r <- _run self ctx actor ;;
    ret (Returned r).

(** *** Values used in the examples *)

(** The handler lists of the example components, all empty. *)
Definition example_lists : gmap loc (list ExtraHandlerFunction) :=
  {[1%positive := []; 2%positive := []; 3%positive := []; 4%positive := []]}.

(** A world without state dictionaries, with nothing logged and nothing
    scheduled; its only objects are the lists of the example components. *)
Definition empty_world : World :=
  {| heap := ∅; lists := example_lists; log := []; tasks := [] |}.

(** A context whose [framework_states] is the empty dictionary, as for a
    session no component has written to. *)
Definition fresh_context : Context :=
  {| framework_states := ∅ |}.

(** A synchronous component named "a" at path "a", with empty handlers. *)
Definition component_a : PipelineComponent :=
  {| class_name := "Service";
     timeout := None;
     requested_async_flag := None;
     calculated_async_flag := false;
     start_condition := always_start_condition;
     name := Some "a";
     path := Some "a";
     before_handler := BeforeHandler 1%positive;
     after_handler := AfterHandler 2%positive |}.

(** A component that can be asynchronous and is not asked otherwise. *)
Definition component_async : PipelineComponent :=
  {| class_name := "Service";
     timeout := None;
     requested_async_flag := None;
     calculated_async_flag := true;
     start_condition := always_start_condition;
     name := Some "b";
     path := Some "b";
     before_handler := BeforeHandler 3%positive;
     after_handler := AfterHandler 4%positive |}.

(** A session whose mapping exists and records that "a" has finished. *)
Definition session_context : Context :=
  {| framework_states := {[PIPELINE_STATE_KEY := 1%positive]} |}.

Definition session_world : World :=
  {| heap := {[1%positive := {[Some "a" := "FINISHED"]}]};
     lists := example_lists;
     log := [];
     tasks := [] |}.

(** The same component with another timeout. *)
Definition with_timeout (t : option float) (self : PipelineComponent) : PipelineComponent :=
  {| class_name := class_name self;
     timeout := t;
     requested_async_flag := requested_async_flag self;
     calculated_async_flag := calculated_async_flag self;
     start_condition := start_condition self;
     name := name self;
     path := path self;
     before_handler := before_handler self;
     after_handler := after_handler self |}.

(** The mapping from path to state name a context refers to, if any. *)
Definition state_mapping (ctx : Context) (w : World) : option StateDict :=
  l ← framework_states ctx !! PIPELINE_STATE_KEY; heap w !! l.

(** Every dictionary the context refers to under the reserved key is on
    the heap. *)
Definition well_formed (ctx : Context) (w : World) : Prop :=
  ∀ l, framework_states ctx !! PIPELINE_STATE_KEY = Some l → is_Some (heap w !! l).

(** A run of state writes on one session, in order. *)
Fixpoint set_states (writes : list (PipelineComponent * ComponentExecutionState.t))
    (ctx : Context) : Py Context :=
  match writes with
  | [] => ret ctx
  | (self, value) :: rest =>
      ctx <- _set_state self ctx value ;;
      set_states rest ctx
  end.

(** An invocation of the extra handler [h] that times out: the call
    itself raises [TimeoutError], or it returns an awaitable which, the
    handler being asynchronous, is awaited and raises [TimeoutError].
    [w1] is the world at the call and [w2] the world at the timeout. *)
Definition invocation_times_out (h : ComponentExtraHandler) (ctx : Context)
    (actor : Actor) (info : ServiceRuntimeInfo) (w1 w2 : World) : Prop :=
  extra_handler_call h ctx actor info w1 = (Raise TimeoutError, w2)
  ∨ ∃ aw w',
      extra_handler_call h ctx actor info w1 = (Ret (IsAwaitable aw), w')
      ∧ extra_handler_asynchronous h = true
      ∧ aw w' = (Raise TimeoutError, w2).

(** The world once the timeout warning of [h] has been logged. *)
Definition warned (self : PipelineComponent) (h : ComponentExtraHandler)
    (w : World) : World :=
  {| heap := heap w;
     lists := lists w;
     log := log w ++ [WARNING (timed_out_message self h)];
     tasks := tasks w |}.

(** A name the constructor accepts: not empty, and without a dot. *)
Definition valid_name (n : string) : Prop :=
  n ≠ "" ∧ ∀ pre post, n ≠ pre ++ String "." post.

(** *** Runs and views used in the further properties *)

(** The handler [run_extra_handler] settles on for a stage, lines
    134-139: none for a stage that is neither BEFORE nor AFTER. *)
Definition handler_at (self : PipelineComponent) (stage_ : ExtraHandlerType.t) :
    option ComponentExtraHandler :=
  match stage_ with
  | ExtraHandlerType.BEFORE => Some (before_handler self)
  | ExtraHandlerType.AFTER => Some (after_handler self)
  | ExtraHandlerType.UNDEFINED => None
  end.

(** An invocation of the extra handler [h] that raises [e]: in the call
    itself, or while the awaitable it returned is awaited, the handler
    being asynchronous.  [w1] is the world at the call and [w2] the world
    when [e] is raised. *)
Definition invocation_raises (h : ComponentExtraHandler) (ctx : Context)
    (actor : Actor) (info : ServiceRuntimeInfo) (w1 : World)
    (e : PyException) (w2 : World) : Prop :=
  extra_handler_call h ctx actor info w1 = (Raise e, w2)
  ∨ ∃ aw w',
      extra_handler_call h ctx actor info w1 = (Ret (IsAwaitable aw), w')
      ∧ extra_handler_asynchronous h = true
      ∧ aw w' = (Raise e, w2).

(** A run of registrations of global extra handlers on one component, in
    order. *)
Fixpoint add_extra_handlers
    (registrations : list (GlobalExtraHandlerType.t * ExtraHandlerFunction))
    (self : PipelineComponent) : Py unit :=
  match registrations with
  | [] => ret tt
  | (global_extra_handler_type, extra_handler) :: rest =>
      add_extra_handler self global_extra_handler_type extra_handler ;;;
      add_extra_handlers rest self
  end.

(** The list object [builder_list] yields in a world, and the world it
    leaves. *)
Definition builder_loc (builder : option loc) (w : World) : loc :=
  match builder with
  | None => fresh (dom (lists w))
  | Some l => l
  end.

Definition builder_world (builder : option loc) (w : World) : World :=
  match builder with
  | None => set_lists (<[fresh (dom (lists w)) := []]> (lists w)) w
  | Some _ => w
  end.

Definition is_before (t : GlobalExtraHandlerType.t) : bool :=
  match t with
  | GlobalExtraHandlerType.BEFORE => true
  | GlobalExtraHandlerType.AFTER => false
  end.

(** The handlers of a run of registrations that carry the BEFORE tag
    ([before := true]) or the AFTER tag, in the order of the run. *)
Fixpoint registered (before : bool)
    (registrations : list (GlobalExtraHandlerType.t * ExtraHandlerFunction)) :
    list ExtraHandlerFunction :=
  match registrations with
  | [] => []
  | (t, f) :: rest =>
      if Bool.eqb (is_before t) before
      then f :: registered before rest
      else registered before rest
  end.

(** The mapping a run of state writes leaves, from the mapping it starts
    with. *)
Fixpoint written (writes : list (PipelineComponent * ComponentExecutionState.t))
    (d : StateDict) : StateDict :=
  match writes with
  | [] => d
  | (self, value) :: rest =>
      written rest (<[path self := ComponentExecutionState.name value]> d)
  end.

(** *** The info dictionary *)

(** What [info_dict] takes from objects that are not at hand: the
    [__name__] of the start condition and the [info_dict] of a handler. *)
Context {ExtraHandlerInfoDict : Type}.
Variable function_name : StartConditionCheckerFunction -> string.
Variable extra_handler_info_dict : ComponentExtraHandler -> World -> ExtraHandlerInfoDict.

(** The dictionary [info_dict] returns, by key; the two entries of
    ["extra_handlers"] are kept side by side. *)
Record InfoDict : Type := mkInfoDict {
  dict_type : string;
  dict_name : option string;
  dict_path : string;
  dict_asynchronous : bool;
  dict_start_condition : string;
  dict_extra_handlers_before : ExtraHandlerInfoDict;
  dict_extra_handlers_after : ExtraHandlerInfoDict
}.

(** The [info_dict] property, lines 213-223, read in a world. *)
Definition info_dict (self : PipelineComponent) (w : World) : InfoDict :=
  {| dict_type := class_name self;
     dict_name := name self;
     dict_path := match path self with Some p => p | None => "[None]" end;
     dict_asynchronous := asynchronous self;
     dict_start_condition := function_name (start_condition self);
     dict_extra_handlers_before := extra_handler_info_dict (before_handler self) w;
     dict_extra_handlers_after := extra_handler_info_dict (after_handler self) w |}.

(** ** Properties *)

(** Runs the primitives of the world as far as the lookups allow. *)
Ltac run_py :=
  cbv beta iota zeta delta
    [bind ret raise try_except deref new_dict dict_setitem copy_deepcopy
     framework_states_getitem framework_states_setitem set_heap set_lists
     new_list list_append builder_list functions_append];
  cbn [heap lists log tasks framework_states].

(** *** Strings and names *)

Lemma char_in_split (c : ascii) (s : string) :
  char_in c s = true ↔ ∃ pre post, s = pre ++ String c post.
Proof.
  induction s as [|x rest IH]; simpl.
  - split; [discriminate|]. intros ([|? ?] & post & H); discriminate.
  - destruct (Ascii.eqb_spec x c) as [->|Hne].
    + split; [|done]. intros _. by exists "", rest.
    + rewrite IH. split.
      * intros (pre & post & ->). by exists (String x pre), post.
      * intros ([|y pre] & post & H); simpl in H; inversion H; subst.
        -- done.
        -- by exists pre, post.
Qed.

Lemma valid_name_check (n : string) :
  valid_name n ↔ String.eqb n "" || char_in "." n = false.
Proof.
  unfold valid_name. rewrite orb_false_iff. split.
  - intros [Hne Hdot]. split.
    + by apply String.eqb_neq.
    + destruct (char_in "." n) eqn:E; [|done].
      apply char_in_split in E as (pre & post & ->). by destruct (Hdot pre post).
  - intros [Hne Hdot]. split.
    + by apply String.eqb_neq.
    + intros pre post ->.
      assert (char_in "." (pre ++ String "." post) = true) as E
        by (apply char_in_split; eauto).
      congruence.
Qed.

Lemma member_of_name_name (v : ComponentExecutionState.t) :
  ComponentExecutionState.member_of_name (ComponentExecutionState.name v) = Some v.
Proof. by destruct v. Qed.

(** *** Construction *)

(** The constructor returns the component it has assigned, or raises one
    of its two errors; which one is read off its arguments.  Either way
    the lists of lines 75 and 76 have been made. *)
Lemma init_cases (cls : string) (bh ah : option loc)
    (t : option float) (req : option bool) (calc : bool)
    (sc : option StartConditionCheckerFunction) (n p : option string) (w : World) :
  __init__ cls bh ah t req calc sc n p w =
    (if match n with Some s => String.eqb s "" || char_in "." s | None => false end
     then Raise (Exception (BadName (str_of_name n)))
     else if negb calc && truthy req
     then Raise (Exception (CantBeAsync cls n))
     else Ret (mkComponent cls t req calc
                 (match sc with None => always_start_condition | Some c => c end)
                 n p
                 (BeforeHandler (builder_loc bh w))
                 (AfterHandler (builder_loc ah (builder_world bh w)))),
     builder_world ah (builder_world bh w)).
Proof.
  unfold __init__, bind, builder_list, new_list, ret, raise.
  destruct bh, ah; cbn;
    destruct (match n with Some s => _ | None => _ end);
    try reflexivity; by destruct (negb calc && truthy req).
Qed.

Lemma flags_rejected (req : option bool) (calc : bool) :
  negb calc && truthy req = true ↔ calc = false ∧ req = Some true.
Proof. destruct calc, req as [[]|]; simpl; intuition congruence. Qed.

(** C2: the [asynchronous] property is the requested flag whenever one was
    requested, true or false, and the calculated flag otherwise; this holds
    of any component, and so of every component the constructor returns. *)
Theorem asynchronous_resolution (self : PipelineComponent) :
  (∀ b, requested_async_flag self = Some b → asynchronous self = b)
  ∧ (requested_async_flag self = None →
     asynchronous self = calculated_async_flag self)
  ∧ (∀ cls bh ah t req calc sc n p w w',
       __init__ cls bh ah t req calc sc n p w = (Ret self, w') →
       asynchronous self = match req with Some b => b | None => calc end).
Proof.
  unfold asynchronous. split; [|split].
  - by intros b ->.
  - by intros ->.
  - intros cls bh ah t req calc sc n p w w'. rewrite init_cases.
    destruct (match n with Some s => _ | None => _ end); [discriminate|].
    destruct (negb calc && truthy req); [discriminate|].
    by intros [= <- _].
Qed.

(** C3: a component that cannot be asynchronous and is requested to be
    asynchronous is refused by the constructor; with a name that passes the
    name check the error is the one of line 82, that error is raised for
    this combination of flags only, and every other combination is
    constructed. *)
Theorem init_async_request (cls : string) (bh ah : option loc)
    (t : option float) (req : option bool) (calc : bool)
    (sc : option StartConditionCheckerFunction) (n p : option string) (w : World) :
  (calc = false → req = Some true →
   ∃ e, (__init__ cls bh ah t req calc sc n p w).1 = Raise (Exception e))
  ∧ (calc = false → req = Some true → (∀ s, n = Some s → valid_name s) →
     (__init__ cls bh ah t req calc sc n p w).1
       = Raise (Exception (CantBeAsync cls n)))
  ∧ (∀ cls' n',
       (__init__ cls bh ah t req calc sc n p w).1
         = Raise (Exception (CantBeAsync cls' n')) →
       calc = false ∧ req = Some true)
  ∧ (¬ (calc = false ∧ req = Some true) → (∀ s, n = Some s → valid_name s) →
     ∃ self, (__init__ cls bh ah t req calc sc n p w).1 = Ret self).
Proof.
  rewrite init_cases. cbn [fst].
  assert ((∀ s, n = Some s → valid_name s) →
          match n with Some s => String.eqb s "" || char_in "." s | None => false end = false)
    as Hname.
  { intros Hv. destruct n as [s|]; [|done]. by apply valid_name_check, Hv. }
  split; [|split; [|split]].
  - intros -> ->. simpl. destruct (match n with Some s => _ | None => _ end); eauto.
  - intros -> -> Hv. by rewrite Hname.
  - intros cls' n' H. apply flags_rejected.
    destruct (match n with Some s => _ | None => _ end); [discriminate|].
    by destruct (negb calc && truthy req).
  - intros Hflags Hv. rewrite Hname by done.
    destruct (negb calc && truthy req) eqn:E; [|eauto].
    by apply flags_rejected in E.
Qed.

(** C4: a name that is empty or contains a dot is refused by the
    constructor, whatever the other arguments, the name "a.b" among them;
    a name that is neither, such as "a", is accepted as long as the flags
    are, and the component carries it unchanged. *)
Theorem init_name_check (cls : string) (bh ah : option loc)
    (t : option float) (req : option bool) (calc : bool)
    (sc : option StartConditionCheckerFunction) (p : option string) (w : World) :
  (∀ n, n = "" ∨ (∃ pre post, n = pre ++ String "." post) →
     (__init__ cls bh ah t req calc sc (Some n) p w).1
       = Raise (Exception (BadName n)))
  ∧ (__init__ cls bh ah t req calc sc (Some "a.b") p w).1
    = Raise (Exception (BadName "a.b"))
  ∧ (∀ n, valid_name n → ¬ (calc = false ∧ req = Some true) →
     ∃ self, (__init__ cls bh ah t req calc sc (Some n) p w).1 = Ret self
             ∧ name self = Some n)
  ∧ (¬ (calc = false ∧ req = Some true) →
     ∃ self, (__init__ cls bh ah t req calc sc (Some "a") p w).1 = Ret self
             ∧ name self = Some "a").
Proof.
  assert (∀ n, valid_name n → ¬ (calc = false ∧ req = Some true) →
     ∃ self, (__init__ cls bh ah t req calc sc (Some n) p w).1 = Ret self
             ∧ name self = Some n) as Hvalid.
  { intros n Hv Hflags. rewrite init_cases. cbn [fst].
    apply valid_name_check in Hv as ->.
    destruct (negb calc && truthy req) eqn:E; [by apply flags_rejected in E|].
    eauto. }
  split; [|split; [|split]].
  - intros n Hbad. rewrite init_cases. cbn [fst].
    assert (String.eqb n "" || char_in "." n = true) as ->; [|done].
    destruct Hbad as [->|Hdot]; [done|].
    apply orb_true_iff. right. by apply char_in_split.
  - by rewrite init_cases.
  - exact Hvalid.
  - apply Hvalid. by apply valid_name_check.
Qed.

(** *** Global extra handlers *)

(** The registration appends to the list the target handler refers to. *)
Lemma add_extra_handler_run (self : PipelineComponent)
    (t : GlobalExtraHandlerType.t) (f : ExtraHandlerFunction) (w : World)
    (xs : list ExtraHandlerFunction) :
  lists w !! functions (if is_before t then before_handler self else after_handler self)
    = Some xs →
  add_extra_handler self t f w =
    (Ret tt,
     {| heap := heap w;
        lists :=
          <[functions (if is_before t then before_handler self else after_handler self)
              := (xs ++ [f])%list]> (lists w);
        log := log w;
        tasks := tasks w |}).
Proof.
  intros Hxs. unfold add_extra_handler. run_py.
  destruct t; cbn [is_before] in *; by rewrite Hxs.
Qed.

(** C9: a global extra handler registered with the BEFORE tag becomes the
    last callable of the before-handler's list, and with the AFTER tag the
    last callable of the after-handler's list.  The other handler's list is
    as it was when the two handlers refer to different list objects; when
    they refer to one list object, the registration shows in both.  No
    other list, and nothing else in the world, is touched. *)
Theorem add_extra_handler_appends (self : PipelineComponent)
    (extra_handler : ExtraHandlerFunction) (w : World)
    (before_functions after_functions : list ExtraHandlerFunction) :
  lists w !! functions (before_handler self) = Some before_functions →
  lists w !! functions (after_handler self) = Some after_functions →
  (∃ w',
     add_extra_handler self GlobalExtraHandlerType.BEFORE extra_handler w = (Ret tt, w')
     ∧ lists w' !! functions (before_handler self)
       = Some (before_functions ++ [extra_handler])%list
     ∧ (functions (before_handler self) ≠ functions (after_handler self) →
        lists w' !! functions (after_handler self) = Some after_functions)
     ∧ (functions (before_handler self) = functions (after_handler self) →
        lists w' !! functions (after_handler self)
          = Some (after_functions ++ [extra_handler])%list)
     ∧ (∀ l, l ≠ functions (before_handler self) → lists w' !! l = lists w !! l)
     ∧ heap w' = heap w ∧ log w' = log w ∧ tasks w' = tasks w)
  ∧ (∃ w',
       add_extra_handler self GlobalExtraHandlerType.AFTER extra_handler w = (Ret tt, w')
       ∧ lists w' !! functions (after_handler self)
         = Some (after_functions ++ [extra_handler])%list
       ∧ (functions (before_handler self) ≠ functions (after_handler self) →
          lists w' !! functions (before_handler self) = Some before_functions)
       ∧ (functions (before_handler self) = functions (after_handler self) →
          lists w' !! functions (before_handler self)
            = Some (before_functions ++ [extra_handler])%list)
       ∧ (∀ l, l ≠ functions (after_handler self) → lists w' !! l = lists w !! l)
       ∧ heap w' = heap w ∧ log w' = log w ∧ tasks w' = tasks w).
Proof.
  intros Hbefore Hafter. split.
  - rewrite (add_extra_handler_run _ GlobalExtraHandlerType.BEFORE _ _ before_functions)
      by done.
    eexists. split; [done|]. cbn [is_before heap lists log tasks].
    split; [apply lookup_insert_eq|]. split; [|split; [|split]]; [| | |done].
    + intros Hne. by rewrite lookup_insert_ne.
    + intros Heq. rewrite <- Heq, lookup_insert_eq.
      rewrite <- Heq in Hafter. congruence.
    + intros l Hne. by rewrite lookup_insert_ne.
  - rewrite (add_extra_handler_run _ GlobalExtraHandlerType.AFTER _ _ after_functions)
      by done.
    eexists. split; [done|]. cbn [is_before heap lists log tasks].
    split; [apply lookup_insert_eq|]. split; [|split; [|split]]; [| | |done].
    + intros Hne. by rewrite lookup_insert_ne.
    + intros Heq. rewrite Heq, lookup_insert_eq.
      rewrite Heq in Hbefore. congruence.
    + intros l Hne. by rewrite lookup_insert_ne.
Qed.

(** *** State accessors *)

(** The first write of a session: the mapping is created with the one
    entry. *)
Lemma set_state_absent (self : PipelineComponent) (ctx : Context)
    (value : ComponentExecutionState.t) (w : World) :
  framework_states ctx !! PIPELINE_STATE_KEY = None →
  _set_state self ctx value w =
    (Ret {| framework_states :=
              <[PIPELINE_STATE_KEY := fresh (dom (heap w))]> (framework_states ctx) |},
     {| heap := <[fresh (dom (heap w)) :=
                    <[path self := ComponentExecutionState.name value]> ∅]> (heap w);
        lists := lists w;
        log := log w;
        tasks := tasks w |}).
Proof.
  intros Habsent. unfold _set_state. rewrite Habsent. run_py.
  rewrite lookup_insert_eq. run_py. rewrite lookup_insert_eq. run_py.
  by rewrite insert_insert_eq.
Qed.

(** A later write: the entry is set in the mapping that is there. *)
Lemma set_state_present (self : PipelineComponent) (ctx : Context)
    (value : ComponentExecutionState.t) (w : World) (l : loc) (d : StateDict) :
  framework_states ctx !! PIPELINE_STATE_KEY = Some l →
  heap w !! l = Some d →
  _set_state self ctx value w =
    (Ret ctx,
     {| heap := <[l := <[path self := ComponentExecutionState.name value]> d]> (heap w);
        lists := lists w;
        log := log w;
        tasks := tasks w |}).
Proof.
  intros Hl Hd. unfold _set_state. rewrite Hl. run_py. rewrite Hl. run_py.
  rewrite Hd. by run_py.
Qed.

(** Reading goes through the stored name, or through the default. *)
Lemma get_state_present (self : PipelineComponent) (ctx : Context)
    (dflt : option ComponentExecutionState.t) (w : World) (l : loc) (d : StateDict) :
  framework_states ctx !! PIPELINE_STATE_KEY = Some l →
  heap w !! l = Some d →
  get_state self ctx dflt w =
    ComponentExecutionState_getitem (dict_get d (path self) dflt) w.
Proof.
  intros Hl Hd. unfold get_state. run_py. rewrite Hl. run_py. rewrite Hd.
  by destruct dflt.
Qed.

(** A recorded name of a member is read back as that member. *)
Lemma get_state_recorded (self : PipelineComponent) (ctx : Context)
    (dflt : option ComponentExecutionState.t) (w : World) (l : loc) (d : StateDict)
    (v : ComponentExecutionState.t) :
  framework_states ctx !! PIPELINE_STATE_KEY = Some l →
  heap w !! l = Some d →
  d !! path self = Some (ComponentExecutionState.name v) →
  get_state self ctx dflt w = (Ret v, w).
Proof.
  intros Hl Hd Hv. rewrite (get_state_present _ _ _ _ l d) by done.
  unfold dict_get. rewrite Hv. simpl. by rewrite member_of_name_name.
Qed.

(** A recorded tag that names no member makes the read fail. *)
Lemma get_state_unrecognised (self : PipelineComponent) (ctx : Context)
    (dflt : option ComponentExecutionState.t) (w : World) (l : loc) (d : StateDict)
    (tag : string) :
  framework_states ctx !! PIPELINE_STATE_KEY = Some l →
  heap w !! l = Some d →
  d !! path self = Some tag →
  ComponentExecutionState.member_of_name tag = None →
  get_state self ctx dflt w = (Raise (KeyError (PStr tag)), w).
Proof.
  intros Hl Hd Htag Hnone. rewrite (get_state_present _ _ _ _ l d) by done.
  unfold dict_get. rewrite Htag. simpl. by rewrite Hnone.
Qed.

(** Nothing recorded and no default: the read fails. *)
Lemma get_state_no_default (self : PipelineComponent) (ctx : Context)
    (w : World) (l : loc) (d : StateDict) :
  framework_states ctx !! PIPELINE_STATE_KEY = Some l →
  heap w !! l = Some d →
  d !! path self = None →
  get_state self ctx None w = (Raise (KeyError PNone), w).
Proof.
  intros Hl Hd Hnone. rewrite (get_state_present _ _ _ _ l d) by done.
  unfold dict_get. by rewrite Hnone.
Qed.

(** Nothing recorded in a mapping that is there: the default itself is
    looked up among the member names. *)
Lemma get_state_default (self : PipelineComponent) (ctx : Context)
    (w : World) (l : loc) (d : StateDict) (m : ComponentExecutionState.t) :
  framework_states ctx !! PIPELINE_STATE_KEY = Some l →
  heap w !! l = Some d →
  d !! path self = None →
  get_state self ctx (Some m) w =
    match str_value m with
    | Some s =>
        match ComponentExecutionState.member_of_name s with
        | Some m' => (Ret m', w)
        | None => (Raise (KeyError (PMember m)), w)
        end
    | None => (Raise (KeyError (PMember m)), w)
    end.
Proof.
  intros Hl Hd Hnone. rewrite (get_state_present _ _ _ _ l d) by done.
  unfold dict_get. rewrite Hnone. simpl.
  destruct (str_value m) as [s|]; [|done].
  by destruct (ComponentExecutionState.member_of_name s).
Qed.

(** C1: on a session nothing has been written to, whose [framework_states]
    is still the empty dictionary, [get_state] raises the [KeyError] of the
    reserved key, whether a default is supplied or not: the default is not
    returned. *)
Theorem get_state_fresh_context_raises (self : PipelineComponent)
    (dflt : option ComponentExecutionState.t) (w : World) :
  get_state self fresh_context dflt w
    = (Raise (KeyError (PStr PIPELINE_STATE_KEY)), w).
Proof. reflexivity. Qed.

(** C5: [_set_state] does not fail and leaves the name of the given state
    under the component's path, whatever was recorded there; when the
    session has no mapping yet a new one is created for the entry, and when
    it has one the entry is written into that mapping and no dictionary is
    created.  Log and event loop are not touched. *)
Theorem set_state_writes (self : PipelineComponent) (ctx : Context)
    (value : ComponentExecutionState.t) (w : World) :
  well_formed ctx w →
  ∃ ctx' w',
    _set_state self ctx value w = (Ret ctx', w')
    ∧ state_mapping ctx' w'
      = Some (<[path self := ComponentExecutionState.name value]>
                (default ∅ (state_mapping ctx w)))
    ∧ (framework_states ctx !! PIPELINE_STATE_KEY = None →
       ∃ l, (l ∉ dom (heap w))
            ∧ framework_states ctx' = <[PIPELINE_STATE_KEY := l]> (framework_states ctx)
            ∧ heap w' = <[l := <[path self := ComponentExecutionState.name value]> ∅]> (heap w))
    ∧ (∀ l, framework_states ctx !! PIPELINE_STATE_KEY = Some l →
            ctx' = ctx ∧ dom (heap w') = dom (heap w)
            ∧ ∀ l', l' ≠ l → heap w' !! l' = heap w !! l')
    ∧ log w' = log w ∧ tasks w' = tasks w.
Proof.
  intros Hwf. unfold state_mapping.
  destruct (framework_states ctx !! PIPELINE_STATE_KEY) as [l|] eqn:Hl.
  - destruct (Hwf l Hl) as [d Hd].
    rewrite (set_state_present _ _ _ _ l d) by done.
    eexists _, _. split; [done|]. simpl. rewrite Hl. simpl.
    rewrite lookup_insert_eq, Hd. simpl.
    repeat split; try done.
    + apply dom_insert_lookup_L. eauto.
    + intros l' Hne. simplify_eq. by rewrite lookup_insert_ne.
  - rewrite set_state_absent by done.
    eexists _, _. split; [done|]. simpl.
    rewrite lookup_insert_eq. simpl. rewrite lookup_insert_eq.
    repeat split; try done.
    intros _. exists (fresh (dom (heap w))). repeat split.
    apply is_fresh.
Qed.

(** C10: after [_set_state] with a state [v], [get_state] returns [v]
    whatever default it is given, since the stored name is the name of
    [v] and names only [v]; what is recorded under any other path is what
    it was. *)
Theorem set_state_get_state (self : PipelineComponent) (ctx : Context)
    (v : ComponentExecutionState.t) (dflt : option ComponentExecutionState.t)
    (w : World) :
  well_formed ctx w →
  ∃ ctx' w',
    _set_state self ctx v w = (Ret ctx', w')
    ∧ get_state self ctx' dflt w' = (Ret v, w')
    ∧ ∀ p, p ≠ path self →
        (d ← state_mapping ctx' w'; d !! p) = (d ← state_mapping ctx w; d !! p).
Proof.
  intros Hwf. unfold state_mapping.
  destruct (framework_states ctx !! PIPELINE_STATE_KEY) as [l|] eqn:Hl.
  - destruct (Hwf l Hl) as [d Hd].
    rewrite (set_state_present _ _ _ _ l d) by done.
    eexists _, _. split; [done|]. split.
    + eapply get_state_recorded; [done|simpl; apply lookup_insert_eq|].
      apply lookup_insert_eq.
    + intros p Hp. rewrite Hl. simpl. rewrite lookup_insert_eq, Hd. simpl.
      by rewrite lookup_insert_ne.
  - rewrite set_state_absent by done.
    eexists _, _. split; [done|]. split.
    + eapply get_state_recorded; simpl; apply lookup_insert_eq.
    + intros p Hp. simpl. rewrite lookup_insert_eq. simpl.
      rewrite lookup_insert_eq. simpl. by rewrite lookup_insert_ne.
Qed.

(** *** The runtime-info snapshot *)

(** State writes on a session leave alone every dictionary on the heap
    other than the session's own mapping. *)
Lemma set_states_frame (writes : list (PipelineComponent * ComponentExecutionState.t)) :
  ∀ (ctx : Context) (w : World) (l0 : loc) (d0 : StateDict),
    heap w !! l0 = Some d0 →
    (∀ l, framework_states ctx !! PIPELINE_STATE_KEY = Some l →
          l ≠ l0 ∧ is_Some (heap w !! l)) →
    ∃ ctx' w', set_states writes ctx w = (Ret ctx', w') ∧ heap w' !! l0 = Some d0.
Proof.
  induction writes as [|[self value] rest IH]; intros ctx w l0 d0 Hl0 Hctx.
  - by eexists _, _.
  - cbn [set_states]. unfold bind at 1.
    destruct (framework_states ctx !! PIPELINE_STATE_KEY) as [l|] eqn:Hl.
    + destruct (Hctx l eq_refl) as [Hne [d Hd]].
      rewrite (set_state_present _ _ _ _ l d) by done.
      apply IH; cbn [heap].
      * by rewrite lookup_insert_ne.
      * intros ? Hl'. rewrite Hl in Hl'. simplify_eq.
        split; [done|]. rewrite lookup_insert_eq. eauto.
    + rewrite set_state_absent by done.
      assert (fresh (dom (heap w)) ≠ l0) as Hfresh.
      { intros <-. apply elem_of_dom_2 in Hl0. by apply is_fresh in Hl0. }
      apply IH; cbn [heap framework_states].
      * by rewrite lookup_insert_ne.
      * intros ?. rewrite lookup_insert_eq. intros [= <-].
        split; [done|]. rewrite lookup_insert_eq. eauto.
Qed.

(** C8: on a session that has its mapping, [_get_runtime_info] returns a
    snapshot with the component's name and path (the text [[None]] for one
    that is not set), its timeout, its resolved asynchronous flag, and a
    new dictionary holding every entry of the mapping; the session's
    mapping is left as it is, and whatever state writes follow, the
    snapshot's dictionary keeps the entries it was taken with. *)
Theorem runtime_info_snapshot (self : PipelineComponent) (ctx : Context)
    (w : World) (l : loc) (d : StateDict) :
  framework_states ctx !! PIPELINE_STATE_KEY = Some l →
  heap w !! l = Some d →
  ∃ info w',
    _get_runtime_info self ctx w = (Ret info, w')
    ∧ info_name info = default "[None]" (name self)
    ∧ info_path info = default "[None]" (path self)
    ∧ info_timeout info = timeout self
    ∧ info_asynchronous info = asynchronous self
    ∧ heap w' !! info_execution_state info = Some d
    ∧ (info_execution_state info ∉ dom (heap w))
    ∧ info_execution_state info ≠ l
    ∧ state_mapping ctx w' = Some d
    ∧ ∀ writes, ∃ ctx'' w'',
        set_states writes ctx w' = (Ret ctx'', w'')
        ∧ heap w'' !! info_execution_state info = Some d.
Proof.
  intros Hl Hd. unfold _get_runtime_info. run_py. rewrite Hl. run_py.
  rewrite Hd. run_py.
  assert (fresh (dom (heap w)) ≠ l) as Hfresh.
  { intros Heq. apply elem_of_dom_2 in Hd. rewrite <- Heq in Hd.
    by apply is_fresh in Hd. }
  eexists _, _. split; [reflexivity|].
  cbn [info_name info_path info_timeout info_asynchronous info_execution_state heap].
  repeat split.
  - apply lookup_insert_eq.
  - apply is_fresh.
  - done.
  - unfold state_mapping. rewrite Hl. cbn. by rewrite lookup_insert_ne.
  - intros writes. apply set_states_frame; cbn [heap].
    + apply lookup_insert_eq.
    + intros ? Hl'. rewrite Hl in Hl'. simplify_eq. split; [done|].
      rewrite lookup_insert_ne by done. eauto.
Qed.

(** *** The call envelope *)

(** C6: an asynchronous component's call creates a task for the coroutine
    of [_run] and returns it wrapped in [wait_for] with the component's
    timeout, the body not having run; a synchronous component's call runs
    [_run] in place and returns what it returns, or raises what it raises,
    with no task and no timeout involved: changing the timeout changes
    nothing as long as [_run] itself does not look at it. *)
Theorem call_envelope (self : PipelineComponent) (ctx : Context)
    (actor : option Actor) (w : World) :
  (asynchronous self = true →
   __call__ self ctx actor w =
     (Ret (ReturnedAwaitable
             (asyncio_wait_for (TaskOf (_run_coroutine self ctx actor)) (timeout self))),
      {| heap := heap w;
         lists := lists w;
         log := log w;
         tasks := tasks w ++ [TaskOf (_run_coroutine self ctx actor)] |}))
  ∧ (asynchronous self = false →
     __call__ self ctx actor w =
       match _run self ctx actor w with
       | (Ret r, w') => (Ret (Returned r), w')
       | (Raise e, w') => (Raise e, w')
       end)
  ∧ (asynchronous self = false →
     ∀ t, _run (with_timeout t self) ctx actor w = _run self ctx actor w →
          __call__ (with_timeout t self) ctx actor w = __call__ self ctx actor w).
Proof.
  unfold __call__. split; [|split].
  - by intros ->.
  - by intros ->.
  - intros Hsync t Hrun.
    change (asynchronous (with_timeout t self)) with (asynchronous self).
    rewrite Hsync. unfold bind. by rewrite Hrun.
Qed.

(** *** Extra handlers *)

Lemma run_extra_handler_timeout_of (self : PipelineComponent)
    (h : ComponentExtraHandler) (ctx : Context) (actor : Actor)
    (w : World) (info : ServiceRuntimeInfo) (w1 w2 : World) :
  _get_runtime_info self ctx w = (Ret info, w1) →
  invocation_times_out h ctx actor info w1 w2 →
  try_except
    (info <- _get_runtime_info self ctx ;;
     extra_handler_result <- extra_handler_call h ctx actor info ;;
     match extra_handler_result with
     | IsAwaitable aw => if extra_handler_asynchronous h then aw else ret tt
     | NotAwaitable => ret tt
     end)
    (fun e =>
       match e with
       | TimeoutError => logger_warning (timed_out_message self h)
       | _ => raise e
       end) w
  = (Ret tt, warned self h w2).
Proof.
  intros Hinfo Htimeout. unfold try_except, bind. rewrite Hinfo.
  destruct Htimeout as [Hcall|(aw & w' & Hcall & Hasync & Haw)]; rewrite Hcall.
  - reflexivity.
  - rewrite Hasync, Haw. reflexivity.
Qed.

(** C7: when the invocation of the before-handler, or of the
    after-handler, times out, [run_extra_handler] returns normally, having
    logged one warning that names the component and the stage. *)
Theorem run_extra_handler_timeout (self : PipelineComponent) (ctx : Context)
    (actor : Actor) (w : World) (info : ServiceRuntimeInfo) (w1 w2 : World) :
  _get_runtime_info self ctx w = (Ret info, w1) →
  (invocation_times_out (before_handler self) ctx actor info w1 w2 →
   run_extra_handler self ExtraHandlerType.BEFORE ctx actor w
     = (Ret tt, warned self (before_handler self) w2))
  ∧ (invocation_times_out (after_handler self) ctx actor info w1 w2 →
     run_extra_handler self ExtraHandlerType.AFTER ctx actor w
       = (Ret tt, warned self (after_handler self) w2)).
Proof.
  intros Hinfo. split; intros Htimeout; unfold run_extra_handler;
    cbn [ExtraHandlerType.eqb]; by eapply run_extra_handler_timeout_of.
Qed.

(** ** Further properties *)

(** *** Shared facts *)

Lemma get_runtime_info_present (self : PipelineComponent) (ctx : Context)
    (w : World) (l : loc) (d : StateDict) :
  framework_states ctx !! PIPELINE_STATE_KEY = Some l →
  heap w !! l = Some d →
  _get_runtime_info self ctx w =
    (Ret {| info_name := default "[None]" (name self);
            info_path := default "[None]" (path self);
            info_timeout := timeout self;
            info_asynchronous := asynchronous self;
            info_execution_state := fresh (dom (heap w)) |},
     {| heap := <[fresh (dom (heap w)) := d]> (heap w);
        lists := lists w;
        log := log w;
        tasks := tasks w |}).
Proof.
  intros Hl Hd. unfold _get_runtime_info. run_py. rewrite Hl. run_py.
  rewrite Hd. run_py. by destruct (name self), (path self).
Qed.

Lemma get_runtime_info_absent (self : PipelineComponent) (ctx : Context) (w : World) :
  framework_states ctx !! PIPELINE_STATE_KEY = None →
  _get_runtime_info self ctx w = (Raise (KeyError (PStr PIPELINE_STATE_KEY)), w).
Proof.
  intros Habsent. unfold _get_runtime_info. run_py. by rewrite Habsent.
Qed.

Lemma fresh_not_allocated (w : World) (l : loc) (d : StateDict) :
  heap w !! l = Some d → fresh (dom (heap w)) ≠ l.
Proof.
  intros Hd Heq. apply elem_of_dom_2 in Hd. rewrite <- Heq in Hd.
  by apply is_fresh in Hd.
Qed.

(** *** Construction and registration *)

(** X1: a component the constructor returns is asynchronous exactly when
    it can be and was not asked to be synchronous; in particular it is
    never asynchronous without being able to, and its name, when it has
    one, passed the name check. *)
Theorem init_resolved_asynchrony (cls : string)
    (bh ah : option loc) (t : option float)
    (req : option bool) (calc : bool)
    (sc : option StartConditionCheckerFunction) (n p : option string)
    (w : World) (self : PipelineComponent) :
  (__init__ cls bh ah t req calc sc n p w).1 = Ret self →
  asynchronous self = calc && negb (bool_decide (req = Some false))
  ∧ (asynchronous self = true → calculated_async_flag self = true)
  ∧ (∀ s, name self = Some s → valid_name s).
Proof.
  rewrite init_cases. cbn [fst].
  destruct (match n with Some s => _ | None => _ end) eqn:Hname; [discriminate|].
  destruct (negb calc && truthy req) eqn:Hflags; [discriminate|].
  intros [= <-]. unfold asynchronous. cbn.
  split; [|split].
  - destruct calc, req as [[]|]; done.
  - destruct calc, req as [[]|]; done.
  - intros s ->. by apply valid_name_check.
Qed.

(** One registration, seen from both handlers. *)
Lemma add_extra_handler_step (self : PipelineComponent)
    (t : GlobalExtraHandlerType.t) (f : ExtraHandlerFunction) (w : World)
    (before_functions after_functions : list ExtraHandlerFunction) :
  lists w !! functions (before_handler self) = Some before_functions →
  lists w !! functions (after_handler self) = Some after_functions →
  ∃ w1,
    add_extra_handler self t f w = (Ret tt, w1)
    ∧ lists w1 !! functions (before_handler self)
      = Some (before_functions ++
              if is_before t
                 || bool_decide (functions (before_handler self)
                                 = functions (after_handler self))
              then [f] else [])%list
    ∧ lists w1 !! functions (after_handler self)
      = Some (after_functions ++
              if negb (is_before t)
                 || bool_decide (functions (before_handler self)
                                 = functions (after_handler self))
              then [f] else [])%list
    ∧ (∀ l, l ≠ functions (before_handler self) →
            l ≠ functions (after_handler self) →
            lists w1 !! l = lists w !! l)
    ∧ heap w1 = heap w ∧ log w1 = log w ∧ tasks w1 = tasks w.
Proof.
  intros Hbefore Hafter.
  destruct t; cbn [is_before negb orb].
  - rewrite (add_extra_handler_run _ GlobalExtraHandlerType.BEFORE _ _ before_functions)
      by done.
    eexists. split; [done|]. cbn [is_before heap lists log tasks].
    split; [apply lookup_insert_eq|]. split; [|split; [|done]].
    + case_bool_decide as Heq.
      * rewrite <- Heq, lookup_insert_eq. rewrite <- Heq in Hafter. congruence.
      * rewrite lookup_insert_ne by done. by rewrite app_nil_r.
    + intros l Hl _. by rewrite lookup_insert_ne.
  - rewrite (add_extra_handler_run _ GlobalExtraHandlerType.AFTER _ _ after_functions)
      by done.
    eexists. split; [done|]. cbn [is_before heap lists log tasks].
    split; [|split; [apply lookup_insert_eq|split; [|done]]].
    + case_bool_decide as Heq.
      * rewrite Heq, lookup_insert_eq. rewrite Heq in Hbefore. congruence.
      * rewrite lookup_insert_ne by done. by rewrite app_nil_r.
    + intros l _ Hl. by rewrite lookup_insert_ne.
Qed.

(** X2: a run of registrations on a component never fails as long as its
    two lists are there.  When the handlers refer to different list
    objects, the before-handler's list ends up as what it was followed by
    the handlers registered with BEFORE, in the order they were registered,
    and the after-handler's likewise with AFTER; when they refer to one
    list object, that list ends up as what it was followed by all the
    registered handlers in order.  No other list, and nothing else in the
    world, is touched. *)
Theorem add_extra_handlers_order
    (registrations : list (GlobalExtraHandlerType.t * ExtraHandlerFunction))
    (self : PipelineComponent) (w : World)
    (before_functions after_functions : list ExtraHandlerFunction) :
  lists w !! functions (before_handler self) = Some before_functions →
  lists w !! functions (after_handler self) = Some after_functions →
  ∃ w',
    add_extra_handlers registrations self w = (Ret tt, w')
    ∧ (functions (before_handler self) ≠ functions (after_handler self) →
       lists w' !! functions (before_handler self)
         = Some (before_functions ++ registered true registrations)%list
       ∧ lists w' !! functions (after_handler self)
         = Some (after_functions ++ registered false registrations)%list)
    ∧ (functions (before_handler self) = functions (after_handler self) →
       lists w' !! functions (before_handler self)
         = Some (before_functions ++ registrations.*2)%list)
    ∧ (∀ l, l ≠ functions (before_handler self) →
            l ≠ functions (after_handler self) →
            lists w' !! l = lists w !! l)
    ∧ heap w' = heap w ∧ log w' = log w ∧ tasks w' = tasks w.
Proof.
  revert w before_functions after_functions.
  induction registrations as [|[t f] rest IH];
    intros w before_functions after_functions Hbefore Hafter.
  - exists w. cbn. rewrite !app_nil_r. by repeat split.
  - cbn [add_extra_handlers]. unfold bind.
    destruct (add_extra_handler_step self t f w _ _ Hbefore Hafter)
      as (w1 & -> & Hbefore1 & Hafter1 & Hother1 & Hheap1 & Hlog1 & Htasks1).
    destruct (IH w1 _ _ Hbefore1 Hafter1)
      as (w' & Hrun & Hdistinct & Hshared & Hother & Hheap & Hlog & Htasks).
    exists w'. split; [exact Hrun|]. split; [|split; [|split]].
    + intros Hne. destruct (Hdistinct Hne) as [-> ->].
      rewrite bool_decide_eq_false_2 by done.
      destruct t; cbn; by rewrite <- ?app_assoc, ?app_nil_r.
    + intros Heq. rewrite (Hshared Heq).
      rewrite bool_decide_eq_true_2, orb_true_r by done.
      cbn. by rewrite <- app_assoc.
    + intros l Hl1 Hl2. rewrite (Hother l Hl1 Hl2). by apply Hother1.
    + repeat split; congruence.
Qed.

(** *** Reading the state *)

(** X3: [get_state] only reads: whatever it returns or raises, heap, log
    and event loop are as they were. *)
Theorem get_state_read_only (self : PipelineComponent) (ctx : Context)
    (dflt : option ComponentExecutionState.t) (w : World) :
  (get_state self ctx dflt w).2 = w.
Proof.
  unfold get_state. run_py.
  destruct (framework_states ctx !! PIPELINE_STATE_KEY) as [l|]; [|done].
  run_py. destruct (heap w !! l) as [d|]; [|done].
  unfold ComponentExecutionState_getitem, dict_get.
  destruct (d !! path self) as [tag|].
  - by destruct (ComponentExecutionState.member_of_name tag).
  - destruct dflt as [m|]; [|done].
    destruct (str_value m) as [s|]; [|done].
    by destruct (ComponentExecutionState.member_of_name s).
Qed.

(** X4: when a tag is recorded under the component's path, [get_state]
    decodes that tag and ignores the default: it returns the member the
    tag names, and raises [KeyError] with the tag when it names none. *)
Theorem get_state_recorded_tag (self : PipelineComponent) (ctx : Context)
    (dflt : option ComponentExecutionState.t) (w : World) (l : loc)
    (d : StateDict) (tag : string) :
  framework_states ctx !! PIPELINE_STATE_KEY = Some l →
  heap w !! l = Some d →
  d !! path self = Some tag →
  get_state self ctx dflt w =
    match ComponentExecutionState.member_of_name tag with
    | Some m => (Ret m, w)
    | None => (Raise (KeyError (PStr tag)), w)
    end.
Proof.
  intros Hl Hd Htag. rewrite (get_state_present _ _ _ _ l d) by done.
  unfold dict_get. rewrite Htag. cbn.
  by destruct (ComponentExecutionState.member_of_name tag).
Qed.

Lemma member_of_name_inv (s : string) (m : ComponentExecutionState.t) :
  ComponentExecutionState.member_of_name s = Some m →
  s = ComponentExecutionState.name m.
Proof.
  unfold ComponentExecutionState.member_of_name.
  destruct (String.eqb_spec s "NOT_RUN") as [->|_]; [by intros [= <-]|].
  destruct (String.eqb_spec s "RUNNING") as [->|_]; [by intros [= <-]|].
  destruct (String.eqb_spec s "FINISHED") as [->|_]; [by intros [= <-]|].
  destruct (String.eqb_spec s "FAILED") as [->|_]; [by intros [= <-]|].
  discriminate.
Qed.

(** X5: when the mapping is there and holds nothing under the component's
    path, [get_state] without a default raises [KeyError]; with a default
    it looks the default itself up among the member names: a member that is
    no string raises [KeyError], a member that is a string is looked up
    under that string, and so the default is returned if and only if it is
    a string equal to its own name. *)
Theorem get_state_nothing_recorded (self : PipelineComponent) (ctx : Context)
    (w : World) (l : loc) (d : StateDict) :
  framework_states ctx !! PIPELINE_STATE_KEY = Some l →
  heap w !! l = Some d →
  d !! path self = None →
  get_state self ctx None w = (Raise (KeyError PNone), w)
  ∧ (∀ m, str_value m = None →
       get_state self ctx (Some m) w = (Raise (KeyError (PMember m)), w))
  ∧ (∀ m s, str_value m = Some s →
       get_state self ctx (Some m) w =
         match ComponentExecutionState.member_of_name s with
         | Some m' => (Ret m', w)
         | None => (Raise (KeyError (PMember m)), w)
         end)
  ∧ (∀ m, get_state self ctx (Some m) w = (Ret m, w)
          ↔ str_value m = Some (ComponentExecutionState.name m)).
Proof.
  intros Hl Hd Hnone. split; [|split; [|split]].
  - by apply (get_state_no_default _ _ _ l d).
  - intros m Hm. rewrite (get_state_default _ _ _ l d) by done. by rewrite Hm.
  - intros m s Hm. rewrite (get_state_default _ _ _ l d) by done. by rewrite Hm.
  - intros m. rewrite (get_state_default _ _ _ l d) by done.
    destruct (str_value m) as [s|]; [|split; discriminate].
    destruct (ComponentExecutionState.member_of_name s) as [m'|] eqn:Hs.
    + apply member_of_name_inv in Hs as ->. split.
      * by intros [= ->].
      * intros [= Heq]. destruct m, m'; by try discriminate.
    + split; [discriminate|]. intros [= ->].
      by rewrite member_of_name_name in Hs.
Qed.

(** *** Writing the state *)

(** X6: of two writes in a row under the same path the second one wins:
    session and world are left as by the second write alone. *)
Theorem set_state_overwrites (c1 c2 : PipelineComponent) (ctx : Context)
    (v1 v2 : ComponentExecutionState.t) (w : World) :
  well_formed ctx w →
  path c1 = path c2 →
  (ctx' <- _set_state c1 ctx v1 ;; _set_state c2 ctx' v2) w
    = _set_state c2 ctx v2 w.
Proof.
  intros Hwf Hpath. unfold bind.
  destruct (framework_states ctx !! PIPELINE_STATE_KEY) as [l|] eqn:Hl.
  - destruct (Hwf l Hl) as [d Hd].
    rewrite (set_state_present c1 ctx v1 w l d) by done.
    erewrite (set_state_present c2 _ _ _ l) by (done || apply lookup_insert_eq).
    rewrite (set_state_present c2 ctx v2 w l d) by done.
    cbn [heap log tasks]. by rewrite Hpath, !insert_insert_eq.
  - rewrite (set_state_absent c1 ctx v1 w), (set_state_absent c2 ctx v2 w) by done.
    erewrite (set_state_present c2) by (cbn; apply lookup_insert_eq).
    cbn [heap log tasks]. by rewrite Hpath, !insert_insert_eq.
Qed.

(** X7: writes under different paths commute: done in either order they
    leave the same session and the same world. *)
Theorem set_state_commutes (c1 c2 : PipelineComponent) (ctx : Context)
    (v1 v2 : ComponentExecutionState.t) (w : World) :
  well_formed ctx w →
  path c1 ≠ path c2 →
  (ctx' <- _set_state c1 ctx v1 ;; _set_state c2 ctx' v2) w
    = (ctx' <- _set_state c2 ctx v2 ;; _set_state c1 ctx' v1) w.
Proof.
  intros Hwf Hpath. unfold bind.
  destruct (framework_states ctx !! PIPELINE_STATE_KEY) as [l|] eqn:Hl.
  - destruct (Hwf l Hl) as [d Hd].
    rewrite (set_state_present c1 ctx v1 w l d), (set_state_present c2 ctx v2 w l d)
      by done.
    erewrite (set_state_present c2 _ _ _ l) by (done || apply lookup_insert_eq).
    erewrite (set_state_present c1 _ _ _ l) by (done || apply lookup_insert_eq).
    cbn [heap log tasks]. rewrite !insert_insert_eq.
    by rewrite (insert_insert_ne _ (path c1) (path c2)).
  - rewrite (set_state_absent c1 ctx v1 w), (set_state_absent c2 ctx v2 w) by done.
    erewrite (set_state_present c2) by (cbn; apply lookup_insert_eq).
    erewrite (set_state_present c1) by (cbn; apply lookup_insert_eq).
    cbn [heap log tasks]. rewrite !insert_insert_eq.
    by rewrite (insert_insert_ne _ (path c1) (path c2)).
Qed.

Lemma set_states_present (writes : list (PipelineComponent * ComponentExecutionState.t)) :
  ∀ (ctx : Context) (w : World) (l : loc) (d : StateDict),
    framework_states ctx !! PIPELINE_STATE_KEY = Some l →
    heap w !! l = Some d →
    set_states writes ctx w =
      (Ret ctx,
       {| heap := <[l := written writes d]> (heap w);
          lists := lists w;
          log := log w;
          tasks := tasks w |}).
Proof.
  induction writes as [|[self value] rest IH]; intros ctx w l d Hl Hd.
  - cbn. unfold ret. rewrite insert_id by done. by destruct w.
  - cbn [set_states written]. unfold bind.
    rewrite (set_state_present _ _ _ _ l d) by done.
    erewrite IH by (done || apply lookup_insert_eq).
    cbn [heap log tasks]. by rewrite insert_insert_eq.
Qed.

Lemma set_states_absent (self : PipelineComponent) (value : ComponentExecutionState.t)
    (rest : list (PipelineComponent * ComponentExecutionState.t))
    (ctx : Context) (w : World) :
  framework_states ctx !! PIPELINE_STATE_KEY = None →
  set_states ((self, value) :: rest) ctx w =
    (Ret {| framework_states :=
              <[PIPELINE_STATE_KEY := fresh (dom (heap w))]> (framework_states ctx) |},
     {| heap := <[fresh (dom (heap w)) := written ((self, value) :: rest) ∅]> (heap w);
        lists := lists w;
        log := log w;
        tasks := tasks w |}).
Proof.
  intros Habsent. cbn [set_states written]. unfold bind.
  rewrite set_state_absent by done.
  erewrite set_states_present by (cbn; apply lookup_insert_eq).
  cbn [heap log tasks]. by rewrite insert_insert_eq.
Qed.

Lemma written_app (earlier later : list (PipelineComponent * ComponentExecutionState.t)) :
  ∀ d, written (earlier ++ later) d = written later (written earlier d).
Proof. induction earlier as [|[c v] rest IH]; intros d; cbn; [done|apply IH]. Qed.

Lemma written_other (later : list (PipelineComponent * ComponentExecutionState.t))
    (p : option string) :
  Forall (λ cv, path cv.1 ≠ p) later →
  ∀ d, written later d !! p = d !! p.
Proof.
  induction 1 as [|[c v] rest Hne _ IH]; intros d; cbn; [done|].
  rewrite IH. by apply lookup_insert_ne.
Qed.

(** X8: a run of one or more state writes on a session never fails; the
    mapping it leaves is the one the session had, or the empty one, with
    the writes applied in order, and log and event loop are untouched. *)
Theorem set_states_result (writes : list (PipelineComponent * ComponentExecutionState.t))
    (ctx : Context) (w : World) :
  well_formed ctx w →
  writes ≠ [] →
  ∃ ctx' w',
    set_states writes ctx w = (Ret ctx', w')
    ∧ state_mapping ctx' w'
      = Some (written writes (default ∅ (state_mapping ctx w)))
    ∧ well_formed ctx' w'
    ∧ log w' = log w ∧ tasks w' = tasks w.
Proof.
  intros Hwf Hwrites. unfold state_mapping, well_formed.
  destruct (framework_states ctx !! PIPELINE_STATE_KEY) as [l|] eqn:Hl.
  - destruct (Hwf l Hl) as [d Hd].
    rewrite (set_states_present _ _ _ l d) by done.
    eexists _, _. split; [done|]. cbn. rewrite Hl. cbn.
    rewrite lookup_insert_eq, Hd. cbn. repeat split.
    intros ? [= <-]. rewrite lookup_insert_eq. eauto.
  - destruct writes as [|[self value] rest]; [done|].
    rewrite set_states_absent by done.
    eexists _, _. split; [done|]. cbn [framework_states heap log tasks].
    rewrite lookup_insert_eq. cbn. rewrite lookup_insert_eq.
    repeat split.
    intros ? [= <-]. rewrite lookup_insert_eq. eauto.
Qed.

(** X9: after a run of state writes, [get_state] of any component returns
    the state last written under that component's path, whatever default
    it is given and whatever was written under other paths afterwards. *)
Theorem set_states_read_back
    (earlier later : list (PipelineComponent * ComponentExecutionState.t))
    (c : PipelineComponent) (v : ComponentExecutionState.t)
    (ctx : Context) (w : World) :
  well_formed ctx w →
  Forall (λ cv, path cv.1 ≠ path c) later →
  ∃ ctx' w',
    set_states (earlier ++ (c, v) :: later) ctx w = (Ret ctx', w')
    ∧ ∀ c' dflt, path c' = path c → get_state c' ctx' dflt w' = (Ret v, w').
Proof.
  intros Hwf Hlater.
  assert (∀ d, written (earlier ++ (c, v) :: later) d !! path c
               = Some (ComponentExecutionState.name v)) as Hread.
  { intros d. rewrite written_app. cbn [written].
    rewrite written_other by done. apply lookup_insert_eq. }
  destruct (framework_states ctx !! PIPELINE_STATE_KEY) as [l|] eqn:Hl.
  - destruct (Hwf l Hl) as [d Hd].
    rewrite (set_states_present _ _ _ l d) by done.
    eexists _, _. split; [done|]. intros c' dflt Hc'.
    eapply get_state_recorded; [done|cbn; apply lookup_insert_eq|].
    rewrite Hc'. apply Hread.
  - destruct (earlier ++ (c, v) :: later)%list as [|[self value] rest] eqn:Hrun.
    { by destruct earlier. }
    rewrite set_states_absent by done.
    eexists _, _. split; [done|]. intros c' dflt Hc'.
    eapply get_state_recorded; cbn [framework_states heap];
      [apply lookup_insert_eq|apply lookup_insert_eq|].
    rewrite Hc'. apply Hread.
Qed.

Lemma getitem_outcome (key : PyValue) (w w' : World) :
  (ComponentExecutionState_getitem key w).1
    = (ComponentExecutionState_getitem key w').1.
Proof.
  unfold ComponentExecutionState_getitem.
  destruct key as [s|m|]; [| |done].
  - by destruct (ComponentExecutionState.member_of_name s).
  - destruct (str_value m) as [s|]; [|done].
    by destruct (ComponentExecutionState.member_of_name s).
Qed.

(** X10: on a session that has its mapping, a write under one path does
    not change what [get_state] returns or raises for a component at
    another path. *)
Theorem set_state_other_component (c c' : PipelineComponent) (ctx : Context)
    (v : ComponentExecutionState.t) (dflt : option ComponentExecutionState.t)
    (w : World) (l : loc) (d : StateDict) :
  framework_states ctx !! PIPELINE_STATE_KEY = Some l →
  heap w !! l = Some d →
  path c' ≠ path c →
  ∃ ctx' w',
    _set_state c ctx v w = (Ret ctx', w')
    ∧ (get_state c' ctx' dflt w').1 = (get_state c' ctx dflt w).1.
Proof.
  intros Hl Hd Hpath. rewrite (set_state_present _ _ _ _ l d) by done.
  eexists _, _. split; [done|].
  erewrite (get_state_present c' _ _ _ l) by (done || apply lookup_insert_eq).
  rewrite (get_state_present c' _ _ _ l d) by done.
  unfold dict_get. rewrite lookup_insert_ne by done. apply getitem_outcome.
Qed.

(** *** Running extra handlers *)

Lemma run_extra_handler_at (self : PipelineComponent) (stage_ : ExtraHandlerType.t)
    (ctx : Context) (actor : Actor) :
  run_extra_handler self stage_ ctx actor =
    match handler_at self stage_ with
    | None => ret tt
    | Some h =>
        try_except
          (info <- _get_runtime_info self ctx ;;
           extra_handler_result <- extra_handler_call h ctx actor info ;;
           match extra_handler_result with
           | IsAwaitable aw => if extra_handler_asynchronous h then aw else ret tt
           | NotAwaitable => ret tt
           end)
          (fun e =>
             match e with
             | TimeoutError => logger_warning (timed_out_message self h)
             | _ => raise e
             end)
    end.
Proof. by destruct stage_. Qed.

(** X11: on a session without the mapping, running the before- or the
    after-handler raises the [KeyError] of the reserved key: building the
    runtime info fails first, the handler is not reached whatever it would
    do, and nothing is logged or allocated. *)
Theorem run_extra_handler_without_mapping (self : PipelineComponent)
    (stage_ : ExtraHandlerType.t) (h : ComponentExtraHandler) (ctx : Context)
    (actor : Actor) (w : World) :
  handler_at self stage_ = Some h →
  framework_states ctx !! PIPELINE_STATE_KEY = None →
  run_extra_handler self stage_ ctx actor w
    = (Raise (KeyError (PStr PIPELINE_STATE_KEY)), w).
Proof.
  intros Hh Habsent. rewrite run_extra_handler_at, Hh.
  unfold try_except, bind. by rewrite get_runtime_info_absent.
Qed.

(** X12: an exception other than [TimeoutError] raised by the invocation
    of an extra handler, in the call or while its result is awaited, leaves
    [run_extra_handler] as it was raised, and no warning is logged. *)
Theorem run_extra_handler_propagates (self : PipelineComponent)
    (stage_ : ExtraHandlerType.t) (h : ComponentExtraHandler) (ctx : Context)
    (actor : Actor) (w : World) (info : ServiceRuntimeInfo) (w1 : World)
    (e : PyException) (w2 : World) :
  handler_at self stage_ = Some h →
  _get_runtime_info self ctx w = (Ret info, w1) →
  invocation_raises h ctx actor info w1 e w2 →
  e ≠ TimeoutError →
  run_extra_handler self stage_ ctx actor w = (Raise e, w2).
Proof.
  intros Hh Hinfo Hraises Hne. rewrite run_extra_handler_at, Hh.
  unfold try_except, bind. rewrite Hinfo.
  destruct Hraises as [Hcall|(aw & w' & Hcall & Hasync & Haw)]; rewrite Hcall.
  - by destruct e.
  - rewrite Hasync, Haw. by destruct e.
Qed.

(** X13: when the call of an extra handler returns a plain value, or the
    handler is not asynchronous, [run_extra_handler] returns normally
    without logging and leaves the world as the call left it: an awaitable
    result is not run.  When the call returns an awaitable and the handler
    is asynchronous, the awaitable is awaited: what it returns is returned,
    a [TimeoutError] is swallowed with one warning logged, and any other
    exception leaves [run_extra_handler] as it was raised. *)
Theorem run_extra_handler_returns (self : PipelineComponent)
    (stage_ : ExtraHandlerType.t) (h : ComponentExtraHandler) (ctx : Context)
    (actor : Actor) (w : World) (info : ServiceRuntimeInfo) (w1 : World)
    (r : HandlerResult) (w2 : World) :
  handler_at self stage_ = Some h →
  _get_runtime_info self ctx w = (Ret info, w1) →
  extra_handler_call h ctx actor info w1 = (Ret r, w2) →
  (extra_handler_asynchronous h = false ∨ r = NotAwaitable →
   run_extra_handler self stage_ ctx actor w = (Ret tt, w2))
  ∧ (∀ aw, r = IsAwaitable aw → extra_handler_asynchronous h = true →
       run_extra_handler self stage_ ctx actor w =
         match aw w2 with
         | (Ret u, w3) => (Ret u, w3)
         | (Raise TimeoutError, w3) => (Ret tt, warned self h w3)
         | (Raise e, w3) => (Raise e, w3)
         end).
Proof.
  intros Hh Hinfo Hcall. rewrite run_extra_handler_at, Hh.
  unfold try_except, bind. rewrite Hinfo, Hcall. split.
  - intros [Hsync| ->]; [|done]. rewrite Hsync. by destruct r.
  - intros aw -> Hasync. rewrite Hasync.
    destruct (aw w2) as [[u|e] w3]; [done|]. by destruct e.
Qed.

(** *** Snapshots and the info dictionary *)

(** X14: a snapshot shows the mapping as it is when it is taken: of two
    snapshots with a state write between them, the first keeps the entries
    from before the write, the second has the written entry, and the two
    are different dictionaries, both different from the session's own. *)
Theorem snapshots_track_writes (self c : PipelineComponent) (ctx : Context)
    (v : ComponentExecutionState.t) (w : World) (l : loc) (d : StateDict) :
  framework_states ctx !! PIPELINE_STATE_KEY = Some l →
  heap w !! l = Some d →
  ∃ info1 info2 ctx' w',
    (info1 <- _get_runtime_info self ctx ;;
     ctx' <- _set_state c ctx v ;;
     info2 <- _get_runtime_info self ctx' ;;
     ret (info1, info2, ctx')) w = (Ret (info1, info2, ctx'), w')
    ∧ heap w' !! info_execution_state info1 = Some d
    ∧ heap w' !! info_execution_state info2
      = Some (<[path c := ComponentExecutionState.name v]> d)
    ∧ state_mapping ctx' w' = Some (<[path c := ComponentExecutionState.name v]> d)
    ∧ info_execution_state info1 ≠ info_execution_state info2
    ∧ info_execution_state info1 ≠ l
    ∧ info_execution_state info2 ≠ l.
Proof.
  intros Hl Hd. unfold bind.
  rewrite (get_runtime_info_present _ _ _ l d) by done.
  pose proof (fresh_not_allocated w l d Hd) as Hf1.
  set (f1 := fresh (dom (heap w))) in *.
  erewrite (set_state_present c _ _ _ l d)
    by (done || (cbn [heap]; by rewrite lookup_insert_ne)).
  cbn [heap log tasks].
  erewrite (get_runtime_info_present self _ _ l)
    by (done || (cbn [heap]; apply lookup_insert_eq)).
  cbn [heap log tasks].
  set (d' := <[path c := ComponentExecutionState.name v]> d).
  set (h2 := <[l := d']> (<[f1 := d]> (heap w))).
  assert (h2 !! f1 = Some d) as Hh2f1.
  { unfold h2. rewrite lookup_insert_ne by done. apply lookup_insert_eq. }
  assert (h2 !! l = Some d') as Hh2l by apply lookup_insert_eq.
  assert (fresh (dom h2) ≠ f1) as Hf21.
  { intros Heq. apply elem_of_dom_2 in Hh2f1. rewrite <- Heq in Hh2f1.
    by apply is_fresh in Hh2f1. }
  assert (fresh (dom h2) ≠ l) as Hf2l.
  { intros Heq. apply elem_of_dom_2 in Hh2l. rewrite <- Heq in Hh2l.
    by apply is_fresh in Hh2l. }
  eexists _, _, _, _. split; [reflexivity|].
  cbn [info_execution_state heap]. unfold state_mapping. rewrite Hl.
  cbn [heap mbind option_bind]. fold h2.
  repeat split; try done.
  - by rewrite lookup_insert_ne.
  - apply lookup_insert_eq.
  - by rewrite lookup_insert_ne.
Qed.

(** X15: the info dictionary and the runtime-info snapshot of a component
    agree on its path, with the same text for a path that is not set, and
    on its asynchronous flag; they agree on the name of a named component,
    and differ for an unnamed one, which the info dictionary reports as
    [None] and the snapshot as the text [[None]]. *)
Theorem info_dict_and_runtime_info (self : PipelineComponent) (ctx : Context)
    (w : World) (info : ServiceRuntimeInfo) (w' w0 : World) :
  _get_runtime_info self ctx w = (Ret info, w') →
  dict_path (info_dict self w0) = info_path info
  ∧ dict_asynchronous (info_dict self w0) = info_asynchronous info
  ∧ (∀ n, name self = Some n →
       dict_name (info_dict self w0) = Some (info_name info))
  ∧ (name self = None →
     dict_name (info_dict self w0) = None ∧ info_name info = "[None]").
Proof.
  unfold _get_runtime_info. run_py.
  destruct (framework_states ctx !! PIPELINE_STATE_KEY) as [l|]; [|discriminate].
  run_py. destruct (heap w !! l) as [d|]; [|discriminate].
  intros [= <- <-]. cbn. split; [done|]. split; [done|]. split.
  - by intros n ->.
  - by intros ->.
Qed.

(** *** The lists of a constructed component *)

(** X16: the handlers of a constructed component refer to the list
    objects the caller passed, and to new empty lists where none was
    passed; the two handlers refer to one list object exactly when the
    caller passed the same list object for both; the lists that were there
    are as they were. *)
Theorem init_handler_lists (cls : string) (bh ah : option loc)
    (t : option float) (req : option bool) (calc : bool)
    (sc : option StartConditionCheckerFunction) (n p : option string)
    (w : World) (self : PipelineComponent) (w' : World) :
  (∀ l, bh = Some l ∨ ah = Some l → is_Some (lists w !! l)) →
  __init__ cls bh ah t req calc sc n p w = (Ret self, w') →
  (functions (before_handler self) = functions (after_handler self)
   ↔ ∃ l, bh = Some l ∧ ah = Some l)
  ∧ (∀ l, bh = Some l → functions (before_handler self) = l)
  ∧ (∀ l, ah = Some l → functions (after_handler self) = l)
  ∧ (bh = None →
     lists w' !! functions (before_handler self) = Some []
     ∧ functions (before_handler self) ∉ dom (lists w))
  ∧ (ah = None →
     lists w' !! functions (after_handler self) = Some []
     ∧ functions (after_handler self) ∉ dom (lists w))
  ∧ (∀ l, is_Some (lists w !! l) → lists w' !! l = lists w !! l)
  ∧ stage (before_handler self) = ExtraHandlerType.BEFORE
  ∧ stage (after_handler self) = ExtraHandlerType.AFTER.
Proof.
  intros Hgiven. rewrite init_cases.
  destruct (match n with Some s => _ | None => _ end); [discriminate|].
  destruct (negb calc && truthy req); [discriminate|].
  intros [= <- <-]. cbn [before_handler after_handler functions stage BeforeHandler AfterHandler].
  assert (∀ (m : gmap loc (list ExtraHandlerFunction)) l,
            is_Some (m !! l) → fresh (dom m) ≠ l) as Hfresh.
  { intros m l Hl%elem_of_dom Heq. rewrite <- Heq in Hl. by apply is_fresh in Hl. }
  destruct bh as [b|], ah as [a|]; cbn [builder_loc builder_world set_lists lists].
  - split; [|split; [|split; [|split; [|split; [|split; [|done]]]]]].
    + split; [intros ->; eauto|]. by intros (l & [= <-] & [= <-]).
    + by intros l [= <-].
    + by intros l [= <-].
    + intros [=].
    + intros [=].
    + done.
  - pose proof (Hfresh _ b (Hgiven b (or_introl eq_refl))) as Hne.
    split; [|split; [|split; [|split; [|split; [|split; [|done]]]]]].
    + split; [intros Heq; by destruct Hne|]. by intros (l & _ & [=]).
    + by intros l [= <-].
    + intros l [=].
    + intros [=].
    + intros _. split; [apply lookup_insert_eq|apply is_fresh].
    + intros l Hl. rewrite lookup_insert_ne; [done|]. by apply Hfresh.
  - pose proof (Hfresh _ a (Hgiven a (or_intror eq_refl))) as Hne.
    split; [|split; [|split; [|split; [|split; [|split; [|done]]]]]].
    + split; [intros Heq; by destruct Hne|]. by intros (l & [=] & _).
    + intros l [=].
    + by intros l [= <-].
    + intros _. split; [apply lookup_insert_eq|apply is_fresh].
    + intros [=].
    + intros l Hl. rewrite lookup_insert_ne; [done|]. by apply Hfresh.
  - set (l1 := fresh (dom (lists w))).
    set (m1 := <[l1 := []]> (lists w)).
    assert (fresh (dom m1) ≠ l1) as Hne.
    { apply Hfresh. unfold m1. rewrite lookup_insert_eq. eauto. }
    split; [|split; [|split; [|split; [|split; [|split; [|done]]]]]].
    + split; [intros Heq; by destruct Hne|]. by intros (l & [=] & _).
    + intros l [=].
    + intros l [=].
    + intros _. split; [|apply is_fresh].
      rewrite lookup_insert_ne by done. apply lookup_insert_eq.
    + intros _. split; [apply lookup_insert_eq|].
      intros Hin. apply (is_fresh (dom m1)). unfold m1 at 2.
      rewrite dom_insert_L. apply elem_of_union_r, Hin.
    + intros l Hl. pose proof (Hfresh _ l Hl) as Hl1. fold l1 in Hl1.
      rewrite lookup_insert_ne.
      * unfold m1. by rewrite lookup_insert_ne.
      * apply Hfresh. unfold m1. by rewrite lookup_insert_ne.
Qed.

End Component.

(** ** The properties at concrete sessions

    The reserved key is taken to be "PIPELINE", actors are of type [unit],
    timeouts are natural numbers and extra-handler functions are named by
    strings. *)

Lemma asynchronous_resolution_witness :
  requested_async_flag (@component_a unit nat) = None
  ∧ asynchronous (@component_a unit nat)
    = calculated_async_flag (@component_a unit nat).
Proof.
  split; [reflexivity|].
  destruct (@asynchronous_resolution unit nat string (@component_a unit nat))
    as (_ & Hunset & _).
  apply Hunset. reflexivity.
Defined.

Lemma init_async_request_witness :
  false = false
  ∧ Some true = Some true
  ∧ (∀ s, Some "a" = Some s → valid_name s)
  ∧ (@__init__ unit nat string "Service" None None None (Some true) false None
       (Some "a") None (@empty_world unit nat string)).1
    = Raise (Exception (CantBeAsync "Service" (Some "a"))).
Proof.
  assert (∀ s, Some "a" = Some s → valid_name s) as Hname.
  { intros s [= <-]. apply valid_name_check. reflexivity. }
  split; [reflexivity|]. split; [reflexivity|]. split; [exact Hname|].
  destruct (@init_async_request unit nat string "Service" None None None
              (Some true) false None (Some "a") None (@empty_world unit nat string)) as (_ & Hraise & _).
  apply Hraise; [reflexivity|reflexivity|exact Hname].
Defined.

Lemma init_name_check_witness :
  valid_name "a"
  ∧ ¬ (false = false ∧ @None bool = Some true)
  ∧ ∃ self,
      (@__init__ unit nat string "Service" None None None None false None
         (Some "a") (Some "a") (@empty_world unit nat string)).1 = Ret self
      ∧ name self = Some "a".
Proof.
  assert (valid_name "a") as Hname by (apply valid_name_check; reflexivity).
  assert (¬ (false = false ∧ @None bool = Some true)) as Hflags
    by (intros [_ H]; discriminate H).
  split; [exact Hname|]. split; [exact Hflags|].
  destruct (@init_name_check unit nat string "Service" None None None None
              false None (Some "a") (@empty_world unit nat string)) as (_ & _ & Hvalid & _).
  apply Hvalid; [exact Hname|exact Hflags].
Defined.

Lemma set_state_writes_witness :
  well_formed "PIPELINE" fresh_context (@empty_world unit nat string)
  ∧ ∃ ctx' w',
      _set_state "PIPELINE" (@component_a unit nat) fresh_context
        ComponentExecutionState.RUNNING (@empty_world unit nat string) = (Ret ctx', w')
      ∧ state_mapping "PIPELINE" ctx' w' = Some (<[Some "a" := "RUNNING"]> ∅).
Proof.
  assert (well_formed "PIPELINE" fresh_context (@empty_world unit nat string)) as Hwf
    by (intros l H; discriminate H).
  split; [exact Hwf|].
  destruct (set_state_writes "PIPELINE" (@component_a unit nat) fresh_context
              ComponentExecutionState.RUNNING (@empty_world unit nat string) Hwf)
    as (ctx' & w' & Hrun & Hmapping & _).
  exists ctx', w'. split; [exact Hrun|exact Hmapping].
Defined.

Lemma set_state_get_state_witness :
  well_formed "PIPELINE" fresh_context (@empty_world unit nat string)
  ∧ ∃ ctx' w',
      _set_state "PIPELINE" (@component_a unit nat) fresh_context
        ComponentExecutionState.FINISHED (@empty_world unit nat string) = (Ret ctx', w')
      ∧ get_state "PIPELINE" (fun _ => None) component_a ctx'
          (Some ComponentExecutionState.NOT_RUN) w'
        = (Ret ComponentExecutionState.FINISHED, w').
Proof.
  assert (well_formed "PIPELINE" fresh_context (@empty_world unit nat string)) as Hwf
    by (intros l H; discriminate H).
  split; [exact Hwf|].
  destruct (set_state_get_state "PIPELINE" (fun _ => None)
              (@component_a unit nat) fresh_context
              ComponentExecutionState.FINISHED
              (Some ComponentExecutionState.NOT_RUN) (@empty_world unit nat string) Hwf)
    as (ctx' & w' & Hset & Hget & _).
  exists ctx', w'. split; [exact Hset|exact Hget].
Defined.

Lemma runtime_info_snapshot_witness :
  framework_states (session_context "PIPELINE") !! "PIPELINE" = Some 1%positive
  ∧ heap (@session_world unit nat string) !! 1%positive
    = Some {[Some "a" := "FINISHED"]}
  ∧ ∃ info w',
      _get_runtime_info "PIPELINE" (@component_a unit nat)
        (session_context "PIPELINE") (@session_world unit nat string) = (Ret info, w')
      ∧ heap w' !! info_execution_state info = Some {[Some "a" := "FINISHED"]}
      ∧ ∃ ctx'' w'',
          set_states "PIPELINE" [(component_a, ComponentExecutionState.FAILED)]
            (session_context "PIPELINE") w' = (Ret ctx'', w'')
          ∧ heap w'' !! info_execution_state info
            = Some {[Some "a" := "FINISHED"]}.
Proof.
  split; [reflexivity|]. split; [reflexivity|].
  destruct (runtime_info_snapshot "PIPELINE" (@component_a unit nat)
              (session_context "PIPELINE") (@session_world unit nat string) 1%positive
              {[Some "a" := "FINISHED"]} eq_refl eq_refl)
    as (info & w' & Hrun & _ & _ & _ & _ & Hcopy & _ & _ & _ & Hlater).
  exists info, w'. split; [exact Hrun|]. split; [exact Hcopy|].
  exact (Hlater [(component_a, ComponentExecutionState.FAILED)]).
Defined.

Lemma call_envelope_witness :
  asynchronous (@component_a unit nat) = false
  ∧ __call__ (fun _ ctx _ => ret (Some ctx)) (@component_a unit nat)
      fresh_context None (@empty_world unit nat string)
    = (Ret (Returned (Some fresh_context)), (@empty_world unit nat string))
  ∧ asynchronous (with_timeout (Some 5) (@component_async unit nat)) = true
  ∧ __call__ (fun _ ctx _ => ret (Some ctx))
      (with_timeout (Some 5) (@component_async unit nat))
      fresh_context None (@empty_world unit nat string)
    = (Ret (ReturnedAwaitable
              (asyncio_wait_for
                 (TaskOf (_run_coroutine (with_timeout (Some 5) component_async)
                            fresh_context None))
                 (Some 5))),
       {| heap := ∅;
          lists := example_lists;
          log := [];
          tasks := [TaskOf (_run_coroutine (with_timeout (Some 5) component_async)
                              fresh_context None)] |}).
Proof.
  split; [reflexivity|]. split.
  - destruct (call_envelope (fun _ ctx _ => ret (Some ctx))
                (@component_a unit nat) fresh_context None (@empty_world unit nat string))
      as (_ & Hsync & _).
    exact (Hsync eq_refl).
  - split; [reflexivity|].
    destruct (call_envelope (fun _ ctx _ => ret (Some ctx))
                (with_timeout (Some 5) (@component_async unit nat))
                fresh_context None (@empty_world unit nat string))
      as (Hasync & _).
    exact (Hasync eq_refl).
Defined.

Lemma run_extra_handler_timeout_witness :
  ∃ (info : @ServiceRuntimeInfo nat) (w1 : @World unit nat string),
    _get_runtime_info "PIPELINE" (@component_a unit nat)
      (session_context "PIPELINE") (@session_world unit nat string) = (Ret info, w1)
    ∧ invocation_times_out (fun _ _ _ _ => raise TimeoutError) (fun _ => false)
        (before_handler (@component_a unit nat))
        (session_context "PIPELINE") tt info w1 w1
    ∧ run_extra_handler "PIPELINE" (fun _ _ _ _ => raise TimeoutError) (fun _ => false)
        component_a ExtraHandlerType.BEFORE (session_context "PIPELINE") tt
        (@session_world unit nat string)
      = (Ret tt, warned component_a (before_handler (@component_a unit nat)) w1).
Proof.
  pose proof (get_runtime_info_present "PIPELINE" (@component_a unit nat)
                (session_context "PIPELINE") (@session_world unit nat string) 1%positive
                {[Some "a" := "FINISHED"]} eq_refl eq_refl) as Hinfo.
  eexists _, _. split; [exact Hinfo|].
  match goal with
  | |- ?P ∧ _ => assert P as Htimeout by (left; reflexivity)
  end.
  split; [exact Htimeout|].
  exact (proj1 (run_extra_handler_timeout "PIPELINE"
                  (fun _ _ _ _ => raise TimeoutError) (fun _ => false)
                  (@component_a unit nat) (session_context "PIPELINE") tt
                  (@session_world unit nat string) _ _ _ Hinfo) Htimeout).
Defined.

(** With a plain enumeration, a default is not returned either when the
    mapping is there and has no entry for the component. *)
Lemma get_state_default_plain_enum :
  get_state "PIPELINE" (fun _ => None) (@component_async unit nat)
    (session_context "PIPELINE") (Some ComponentExecutionState.NOT_RUN)
    (@session_world unit nat string)
  = (Raise (KeyError (PMember ComponentExecutionState.NOT_RUN)), (@session_world unit nat string)).
Proof. reflexivity. Qed.

(** ** The further properties at concrete sessions *)

Lemma init_resolved_asynchrony_witness :
  ∃ self,
    (@__init__ unit nat string "Service" None None None (Some false) true None
       (Some "a") None (@empty_world unit nat string)).1 = Ret self
    ∧ asynchronous self = false.
Proof.
  eexists. split; [reflexivity|].
  exact (proj1 (@init_resolved_asynchrony unit nat string "Service" None None None
                  (Some false) true None (Some "a") None (@empty_world unit nat string) _ eq_refl)).
Defined.

Lemma get_state_recorded_tag_witness :
  framework_states (session_context "PIPELINE") !! "PIPELINE" = Some 1%positive
  ∧ heap (@session_world unit nat string) !! 1%positive
    = Some {[Some "a" := "FINISHED"]}
  ∧ ({[Some "a" := "FINISHED"]} : StateDict) !! path (@component_a unit nat)
    = Some "FINISHED"
  ∧ get_state "PIPELINE" (fun _ => None) (@component_a unit nat)
      (session_context "PIPELINE") (Some ComponentExecutionState.NOT_RUN)
      (@session_world unit nat string)
    = (Ret ComponentExecutionState.FINISHED, (@session_world unit nat string)).
Proof.
  split; [reflexivity|]. split; [reflexivity|]. split; [reflexivity|].
  exact (get_state_recorded_tag "PIPELINE" (fun _ => None)
           (@component_a unit nat) (session_context "PIPELINE")
           (Some ComponentExecutionState.NOT_RUN) (@session_world unit nat string) 1%positive
           {[Some "a" := "FINISHED"]} "FINISHED" eq_refl eq_refl eq_refl).
Defined.

Lemma get_state_nothing_recorded_witness :
  framework_states (session_context "PIPELINE") !! "PIPELINE" = Some 1%positive
  ∧ heap (@session_world unit nat string) !! 1%positive
    = Some {[Some "a" := "FINISHED"]}
  ∧ ({[Some "a" := "FINISHED"]} : StateDict) !! path (@component_async unit nat)
    = None
  ∧ get_state "PIPELINE" (fun _ => None) (@component_async unit nat)
      (session_context "PIPELINE") None (@session_world unit nat string)
    = (Raise (KeyError PNone), (@session_world unit nat string))
  ∧ get_state "PIPELINE" (fun _ => None) (@component_async unit nat)
      (session_context "PIPELINE") (Some ComponentExecutionState.NOT_RUN)
      (@session_world unit nat string)
    = (Raise (KeyError (PMember ComponentExecutionState.NOT_RUN)), (@session_world unit nat string))
  ∧ get_state "PIPELINE" (fun m => Some (ComponentExecutionState.name m))
      (@component_async unit nat)
      (session_context "PIPELINE") (Some ComponentExecutionState.NOT_RUN)
      (@session_world unit nat string)
    = (Ret ComponentExecutionState.NOT_RUN, (@session_world unit nat string)).
Proof.
  split; [reflexivity|]. split; [reflexivity|]. split; [reflexivity|].
  destruct (get_state_nothing_recorded "PIPELINE" (fun _ => None)
              (@component_async unit nat) (session_context "PIPELINE")
              (@session_world unit nat string) 1%positive {[Some "a" := "FINISHED"]}
              eq_refl eq_refl eq_refl) as (Hnone & Hplain & _).
  destruct (get_state_nothing_recorded "PIPELINE"
              (fun m => Some (ComponentExecutionState.name m))
              (@component_async unit nat) (session_context "PIPELINE")
              (@session_world unit nat string) 1%positive {[Some "a" := "FINISHED"]}
              eq_refl eq_refl eq_refl) as (_ & _ & _ & Hstr).
  split; [exact Hnone|]. split.
  - exact (Hplain ComponentExecutionState.NOT_RUN eq_refl).
  - exact (proj2 (Hstr ComponentExecutionState.NOT_RUN) eq_refl).
Defined.

Lemma set_state_overwrites_witness :
  well_formed "PIPELINE" fresh_context (@empty_world unit nat string)
  ∧ path (@component_a unit nat) = path (@component_a unit nat)
  ∧ bind (_set_state "PIPELINE" (@component_a unit nat) fresh_context
            ComponentExecutionState.RUNNING)
      (fun ctx' => _set_state "PIPELINE" component_a ctx'
                     ComponentExecutionState.FINISHED) (@empty_world unit nat string)
    = _set_state "PIPELINE" component_a fresh_context
        ComponentExecutionState.FINISHED (@empty_world unit nat string).
Proof.
  assert (well_formed "PIPELINE" fresh_context (@empty_world unit nat string)) as Hwf
    by (intros l H; discriminate H).
  split; [exact Hwf|]. split; [reflexivity|].
  exact (set_state_overwrites "PIPELINE" (@component_a unit nat) component_a
           fresh_context ComponentExecutionState.RUNNING
           ComponentExecutionState.FINISHED (@empty_world unit nat string) Hwf eq_refl).
Defined.

Lemma set_state_commutes_witness :
  well_formed "PIPELINE" fresh_context (@empty_world unit nat string)
  ∧ path (@component_a unit nat) ≠ path (@component_async unit nat)
  ∧ bind (_set_state "PIPELINE" (@component_a unit nat) fresh_context
            ComponentExecutionState.FINISHED)
      (fun ctx' => _set_state "PIPELINE" component_async ctx'
                     ComponentExecutionState.RUNNING) (@empty_world unit nat string)
    = bind (_set_state "PIPELINE" (@component_async unit nat) fresh_context
              ComponentExecutionState.RUNNING)
        (fun ctx' => _set_state "PIPELINE" component_a ctx'
                       ComponentExecutionState.FINISHED) (@empty_world unit nat string).
Proof.
  assert (well_formed "PIPELINE" fresh_context (@empty_world unit nat string)) as Hwf
    by (intros l H; discriminate H).
  assert (path (@component_a unit nat) ≠ path (@component_async unit nat))
    as Hpath by (intros H; discriminate H).
  split; [exact Hwf|]. split; [exact Hpath|].
  exact (set_state_commutes "PIPELINE" (@component_a unit nat) component_async
           fresh_context ComponentExecutionState.FINISHED
           ComponentExecutionState.RUNNING (@empty_world unit nat string) Hwf Hpath).
Defined.

Lemma set_states_result_witness :
  well_formed "PIPELINE" fresh_context (@empty_world unit nat string)
  ∧ [(@component_a unit nat, ComponentExecutionState.RUNNING);
     (component_a, ComponentExecutionState.FINISHED)] ≠ []
  ∧ ∃ ctx' w',
      set_states "PIPELINE"
        [(@component_a unit nat, ComponentExecutionState.RUNNING);
         (component_a, ComponentExecutionState.FINISHED)]
        fresh_context (@empty_world unit nat string) = (Ret ctx', w')
      ∧ state_mapping "PIPELINE" ctx' w'
        = Some (<[Some "a" := "FINISHED"]> (<[Some "a" := "RUNNING"]> ∅)).
Proof.
  assert (well_formed "PIPELINE" fresh_context (@empty_world unit nat string)) as Hwf
    by (intros l H; discriminate H).
  assert ([(@component_a unit nat, ComponentExecutionState.RUNNING);
           (component_a, ComponentExecutionState.FINISHED)] ≠ []) as Hwrites
    by (intros H; discriminate H).
  split; [exact Hwf|]. split; [exact Hwrites|].
  destruct (set_states_result "PIPELINE" _ fresh_context (@empty_world unit nat string) Hwf Hwrites)
    as (ctx' & w' & Hrun & Hmapping & _).
  exists ctx', w'. split; [exact Hrun|exact Hmapping].
Defined.

Lemma set_states_read_back_witness :
  well_formed "PIPELINE" fresh_context (@empty_world unit nat string)
  ∧ Forall (λ cv, path cv.1 ≠ path (@component_a unit nat))
      [(@component_async unit nat, ComponentExecutionState.RUNNING)]
  ∧ ∃ ctx' w',
      set_states "PIPELINE"
        ([] ++ (@component_a unit nat, ComponentExecutionState.FINISHED)
            :: [(component_async, ComponentExecutionState.RUNNING)])
        fresh_context (@empty_world unit nat string) = (Ret ctx', w')
      ∧ get_state "PIPELINE" (fun _ => None) (@component_a unit nat) ctx'
          None w'
        = (Ret ComponentExecutionState.FINISHED, w').
Proof.
  assert (well_formed "PIPELINE" fresh_context (@empty_world unit nat string)) as Hwf
    by (intros l H; discriminate H).
  assert (Forall (λ cv, path cv.1 ≠ path (@component_a unit nat))
            [(@component_async unit nat, ComponentExecutionState.RUNNING)])
    as Hlater by (constructor; [intros H; discriminate H|constructor]).
  split; [exact Hwf|]. split; [exact Hlater|].
  destruct (set_states_read_back "PIPELINE" (fun _ => None) [] _ component_a
              ComponentExecutionState.FINISHED fresh_context (@empty_world unit nat string) Hwf Hlater)
    as (ctx' & w' & Hrun & Hread).
  exists ctx', w'. split; [exact Hrun|]. exact (Hread component_a None eq_refl).
Defined.

Lemma set_state_other_component_witness :
  framework_states (session_context "PIPELINE") !! "PIPELINE" = Some 1%positive
  ∧ heap (@session_world unit nat string) !! 1%positive
    = Some {[Some "a" := "FINISHED"]}
  ∧ path (@component_a unit nat) ≠ path (@component_async unit nat)
  ∧ ∃ ctx' w',
      _set_state "PIPELINE" (@component_async unit nat)
        (session_context "PIPELINE") ComponentExecutionState.RUNNING
        (@session_world unit nat string) = (Ret ctx', w')
      ∧ (get_state "PIPELINE" (fun _ => None) (@component_a unit nat) ctx'
           None w').1
        = Ret ComponentExecutionState.FINISHED.
Proof.
  assert (path (@component_a unit nat) ≠ path (@component_async unit nat))
    as Hpath by (intros H; discriminate H).
  split; [reflexivity|]. split; [reflexivity|]. split; [exact Hpath|].
  destruct (set_state_other_component "PIPELINE" (fun _ => None)
              (@component_async unit nat) (@component_a unit nat)
              (session_context "PIPELINE") ComponentExecutionState.RUNNING None
              (@session_world unit nat string) 1%positive {[Some "a" := "FINISHED"]}
              eq_refl eq_refl Hpath) as (ctx' & w' & Hrun & Hsame).
  exists ctx', w'. split; [exact Hrun|exact Hsame].
Defined.

Lemma run_extra_handler_without_mapping_witness :
  handler_at (@component_a unit nat) ExtraHandlerType.BEFORE
    = Some (before_handler (@component_a unit nat))
  ∧ framework_states fresh_context !! "PIPELINE" = None
  ∧ run_extra_handler "PIPELINE" (fun _ _ _ _ => raise TimeoutError) (fun _ => false)
      (@component_a unit nat) ExtraHandlerType.BEFORE fresh_context tt
      (@empty_world unit nat string)
    = (Raise (KeyError (PStr "PIPELINE")), (@empty_world unit nat string)).
Proof.
  split; [reflexivity|]. split; [reflexivity|].
  exact (run_extra_handler_without_mapping "PIPELINE"
           (fun _ _ _ _ => raise TimeoutError) (fun _ => false)
           (@component_a unit nat) ExtraHandlerType.BEFORE _ fresh_context tt
           (@empty_world unit nat string) eq_refl eq_refl).
Defined.

Lemma run_extra_handler_propagates_witness :
  ∃ (info : @ServiceRuntimeInfo nat) (w1 : @World unit nat string),
    handler_at (@component_a unit nat) ExtraHandlerType.AFTER
      = Some (after_handler (@component_a unit nat))
    ∧ _get_runtime_info "PIPELINE" (@component_a unit nat)
        (session_context "PIPELINE") (@session_world unit nat string) = (Ret info, w1)
    ∧ invocation_raises (fun _ _ _ _ => raise (OtherError "boom")) (fun _ => false)
        (after_handler (@component_a unit nat))
        (session_context "PIPELINE") tt info w1 (OtherError "boom") w1
    ∧ OtherError "boom" ≠ TimeoutError
    ∧ run_extra_handler "PIPELINE" (fun _ _ _ _ => raise (OtherError "boom"))
        (fun _ => false) component_a ExtraHandlerType.AFTER
        (session_context "PIPELINE") tt (@session_world unit nat string)
      = (Raise (OtherError "boom"), w1).
Proof.
  pose proof (get_runtime_info_present "PIPELINE" (@component_a unit nat)
                (session_context "PIPELINE") (@session_world unit nat string) 1%positive
                {[Some "a" := "FINISHED"]} eq_refl eq_refl) as Hinfo.
  eexists _, _. split; [reflexivity|]. split; [exact Hinfo|].
  match goal with
  | |- ?P ∧ _ => assert P as Hraises by (left; reflexivity)
  end.
  split; [exact Hraises|].
  assert (OtherError "boom" ≠ TimeoutError) as Hne by (intros H; discriminate H).
  split; [exact Hne|].
  exact (run_extra_handler_propagates "PIPELINE"
           (fun _ _ _ _ => raise (OtherError "boom")) (fun _ => false)
           (@component_a unit nat) ExtraHandlerType.AFTER _
           (session_context "PIPELINE") tt (@session_world unit nat string) _ _ _ _
           eq_refl Hinfo Hraises Hne).
Defined.

Lemma run_extra_handler_returns_witness :
  ∃ (info : @ServiceRuntimeInfo nat) (w1 : @World unit nat string),
    handler_at (@component_a unit nat) ExtraHandlerType.BEFORE
      = Some (before_handler (@component_a unit nat))
    ∧ _get_runtime_info "PIPELINE" (@component_a unit nat)
        (session_context "PIPELINE") (@session_world unit nat string) = (Ret info, w1)
    ∧ ret (@IsAwaitable unit nat string (raise TimeoutError)) w1
      = (Ret (IsAwaitable (raise TimeoutError)), w1)
    ∧ run_extra_handler "PIPELINE"
        (fun _ _ _ _ => ret (IsAwaitable (raise TimeoutError)))
        (fun _ => false) component_a ExtraHandlerType.BEFORE
        (session_context "PIPELINE") tt (@session_world unit nat string)
      = (Ret tt, w1).
Proof.
  pose proof (get_runtime_info_present "PIPELINE" (@component_a unit nat)
                (session_context "PIPELINE") (@session_world unit nat string) 1%positive
                {[Some "a" := "FINISHED"]} eq_refl eq_refl) as Hinfo.
  eexists _, _. split; [reflexivity|]. split; [exact Hinfo|].
  split; [reflexivity|].
  exact (proj1 (run_extra_handler_returns "PIPELINE"
                  (fun _ _ _ _ => ret (IsAwaitable (raise TimeoutError)))
                  (fun _ => false)
                  (@component_a unit nat) ExtraHandlerType.BEFORE _
                  (session_context "PIPELINE") tt (@session_world unit nat string) _ _ _ _
                  eq_refl Hinfo eq_refl) (or_introl eq_refl)).
Defined.

Lemma snapshots_track_writes_witness :
  framework_states (session_context "PIPELINE") !! "PIPELINE" = Some 1%positive
  ∧ heap (@session_world unit nat string) !! 1%positive
    = Some {[Some "a" := "FINISHED"]}
  ∧ ∃ info1 info2 ctx' w',
      bind (_get_runtime_info "PIPELINE" (@component_a unit nat)
              (session_context "PIPELINE"))
        (fun info1 =>
           bind (_set_state "PIPELINE" (@component_async unit nat)
                   (session_context "PIPELINE") ComponentExecutionState.RUNNING)
             (fun ctx' =>
                bind (_get_runtime_info "PIPELINE" (@component_a unit nat) ctx')
                  (fun info2 => ret (info1, info2, ctx'))))
        (@session_world unit nat string) = (Ret (info1, info2, ctx'), w')
      ∧ heap w' !! info_execution_state info1 = Some {[Some "a" := "FINISHED"]}
      ∧ heap w' !! info_execution_state info2
        = Some (<[Some "b" := "RUNNING"]> {[Some "a" := "FINISHED"]}).
Proof.
  split; [reflexivity|]. split; [reflexivity|].
  destruct (snapshots_track_writes "PIPELINE" (@component_a unit nat)
              (@component_async unit nat) (session_context "PIPELINE")
              ComponentExecutionState.RUNNING (@session_world unit nat string) 1%positive
              {[Some "a" := "FINISHED"]} eq_refl eq_refl)
    as (info1 & info2 & ctx' & w' & Hrun & Hfirst & Hsecond & _).
  exists info1, info2, ctx', w'. split; [exact Hrun|]. split; [exact Hfirst|exact Hsecond].
Defined.

Lemma info_dict_and_runtime_info_witness :
  ∃ (info : @ServiceRuntimeInfo nat) (w' : @World unit nat string),
    _get_runtime_info "PIPELINE" (@component_a unit nat)
      (session_context "PIPELINE") (@session_world unit nat string) = (Ret info, w')
    ∧ dict_path (info_dict (fun _ => "always_start_condition")
                   (fun h w => length <$> lists w !! functions h)
                   (@component_a unit nat) (@empty_world unit nat string))
      = info_path info.
Proof.
  pose proof (get_runtime_info_present "PIPELINE" (@component_a unit nat)
                (session_context "PIPELINE") (@session_world unit nat string) 1%positive
                {[Some "a" := "FINISHED"]} eq_refl eq_refl) as Hinfo.
  eexists _, _. split; [exact Hinfo|].
  exact (proj1 (info_dict_and_runtime_info "PIPELINE"
                  (fun _ => "always_start_condition")
                  (fun h w => length <$> lists w !! functions h)
                  (@component_a unit nat) (session_context "PIPELINE")
                  (@session_world unit nat string) _ _ (@empty_world unit nat string) Hinfo)).
Defined.

(** ** Counterexamples *)

(** On a session nothing has been written to there is no snapshot:
    [_get_runtime_info] raises the [KeyError] of the reserved key. *)
Lemma runtime_info_snapshot_counterexample :
  _get_runtime_info "PIPELINE" (@component_a unit nat) fresh_context
    (@empty_world unit nat string)
  = (Raise (KeyError (PStr "PIPELINE")), @empty_world unit nat string)
  ∧ ¬ ∃ info w',
        _get_runtime_info "PIPELINE" (@component_a unit nat) fresh_context
          (@empty_world unit nat string) = (Ret info, w').
Proof.
  split; [reflexivity|]. intros (info & w' & H). discriminate H.
Qed.

(** A component built over one list for both handlers: registering with
    BEFORE changes the after-handler's list as well. *)
Lemma add_extra_handler_appends_counterexample :
  ∃ (self : @PipelineComponent unit nat) (w1 w2 : @World unit nat string),
    __init__ "Service" (Some 1%positive) (Some 1%positive) None None false None
      (Some "a") None
      {| heap := ∅; lists := {[1%positive := ["h"]]}; log := []; tasks := [] |}
    = (Ret self, w1)
    ∧ lists w1 !! functions (after_handler self) = Some ["h"]
    ∧ add_extra_handler self GlobalExtraHandlerType.BEFORE "f" w1 = (Ret tt, w2)
    ∧ lists w2 !! functions (before_handler self) = Some ["h"; "f"]
    ∧ lists w2 !! functions (after_handler self) = Some ["h"; "f"]
    ∧ lists w2 !! functions (after_handler self)
      ≠ lists w1 !! functions (after_handler self).
Proof.
  eexists _, _, _. split; [reflexivity|]. split; [reflexivity|].
  split; [reflexivity|]. split; [reflexivity|]. split; [reflexivity|].
  intros H. discriminate H.
Qed.

Lemma add_extra_handler_appends_witness :
  lists (@empty_world unit nat string) !! functions (before_handler (@component_a unit nat))
    = Some []
  ∧ lists (@empty_world unit nat string) !! functions (after_handler (@component_a unit nat))
    = Some []
  ∧ functions (before_handler (@component_a unit nat))
    ≠ functions (after_handler (@component_a unit nat))
  ∧ ∃ w',
      add_extra_handler (@component_a unit nat) GlobalExtraHandlerType.BEFORE "f"
        (@empty_world unit nat string) = (Ret tt, w')
      ∧ lists w' !! functions (before_handler (@component_a unit nat)) = Some ["f"]
      ∧ lists w' !! functions (after_handler (@component_a unit nat)) = Some [].
Proof.
  assert (functions (before_handler (@component_a unit nat))
          ≠ functions (after_handler (@component_a unit nat))) as Hne
    by (intros H; discriminate H).
  split; [reflexivity|]. split; [reflexivity|]. split; [exact Hne|].
  destruct (add_extra_handler_appends (@component_a unit nat) "f"
              (@empty_world unit nat string) [] [] eq_refl eq_refl)
    as ((w' & Hrun & Hbefore & Hafter & _) & _).
  exists w'. split; [exact Hrun|]. split; [exact Hbefore|exact (Hafter Hne)].
Defined.

Lemma add_extra_handlers_order_witness :
  lists (@empty_world unit nat string) !! functions (before_handler (@component_a unit nat))
    = Some []
  ∧ lists (@empty_world unit nat string) !! functions (after_handler (@component_a unit nat))
    = Some []
  ∧ functions (before_handler (@component_a unit nat))
    ≠ functions (after_handler (@component_a unit nat))
  ∧ ∃ w',
      add_extra_handlers
        [(GlobalExtraHandlerType.BEFORE, "f"); (GlobalExtraHandlerType.AFTER, "g");
         (GlobalExtraHandlerType.BEFORE, "h")]
        (@component_a unit nat) (@empty_world unit nat string) = (Ret tt, w')
      ∧ lists w' !! functions (before_handler (@component_a unit nat))
        = Some ["f"; "h"]
      ∧ lists w' !! functions (after_handler (@component_a unit nat)) = Some ["g"].
Proof.
  assert (functions (before_handler (@component_a unit nat))
          ≠ functions (after_handler (@component_a unit nat))) as Hne
    by (intros H; discriminate H).
  split; [reflexivity|]. split; [reflexivity|]. split; [exact Hne|].
  destruct (add_extra_handlers_order
              [(GlobalExtraHandlerType.BEFORE, "f"); (GlobalExtraHandlerType.AFTER, "g");
               (GlobalExtraHandlerType.BEFORE, "h")]
              (@component_a unit nat) (@empty_world unit nat string) [] []
              eq_refl eq_refl)
    as (w' & Hrun & Hdistinct & _).
  exists w'. split; [exact Hrun|]. exact (Hdistinct Hne).
Defined.

Lemma init_handler_lists_witness :
  (∀ l, Some 1%positive = Some l ∨ @None loc = Some l →
        is_Some (lists (@empty_world unit nat string) !! l))
  ∧ ∃ (self : @PipelineComponent unit nat) (w' : @World unit nat string),
      __init__ "Service" (Some 1%positive) None None None false None (Some "a") None
        (@empty_world unit nat string) = (Ret self, w')
      ∧ functions (before_handler self) = 1%positive
      ∧ lists w' !! functions (after_handler self) = Some []
      ∧ functions (before_handler self) ≠ functions (after_handler self).
Proof.
  assert (∀ l, Some 1%positive = Some l ∨ @None loc = Some l →
               is_Some (lists (@empty_world unit nat string) !! l)) as Hgiven.
  { intros l [[= <-]|[=]]. by eexists. }
  split; [exact Hgiven|].
  eexists _, _. split; [reflexivity|].
  destruct (init_handler_lists "Service" (Some 1%positive) None None None false None
              (Some "a") None (@empty_world unit nat string) _ _ Hgiven eq_refl)
    as (Hshare & Hbefore & _ & _ & Hafter & _).
  split; [exact (Hbefore _ eq_refl)|]. split; [exact (proj1 (Hafter eq_refl))|].
  intros Heq. destruct (proj1 Hshare Heq) as (l & _ & [=]).
Defined.
